(** * JSONSchemaField (models/fields.py): schema resolution and validation

    A shallow embedding of [FieldReference] and [JSONSchemaField] over a
    small Python object store.  Python values are immediates or references
    into a heap of objects; every method is a function in a state and
    exception monad that also records, in order, the calls the method makes
    to code outside the module (the JSON decoder, the JSON Schema engine,
    the base column class, the host object model and user callables). *)

From Stdlib Require Import ZArith String Ascii List DecimalString.
From stdpp Require Import base tactics option gmap strings list fin_maps.
Import ListNotations.
Local Open Scope string_scope.

(** ** Python values and objects *)

Abbreviation loc := positive.

Inductive pyval :=
| VNone
| VBool (b : bool)
| VInt (z : Z)
| VStr (s : string)
| VRef (l : loc).

#[global] Instance pyval_eq_dec : EqDecision pyval.
Proof. solve_decision. Defined.

(** Keyword arguments of a call, in call order. *)
Definition kwargs_t := list (string * pyval).

Inductive obj :=
| ODict (items : gmap string pyval)
| OList (elems : list pyval)
| OInst (cls : string) (attrs : gmap string pyval)
| OFunction (name : string)
| OClass (name : string) (methods : list string).

Abbreviation heap_t := (gmap positive obj).

(** ** Exceptions

    One constructor per exception class that the module names in an
    [except] clause or raises itself; an instance of any other class is an
    [OtherError] carrying the class name. *)
Inductive exn :=
| JSONDecodeError (msg : string)
| jsonschema_ValidationError (message : string)
| jsonschema_SchemaError (message : string)
| ValidationError (message : string) (code : string)
| AttributeError (msg : string)
| TypeError (msg : string)
| OtherError (cls : string) (msg : string).

Inductive outcome (A : Type) :=
| Ret (a : A)
| Raise (e : exn).
Arguments Ret {A} a.
Arguments Raise {A} e.

(** ** Calls that leave the module *)
Inductive event :=
| EvSuperInit (self : loc) (args : list pyval) (kwargs : kwargs_t)
| EvJsonLoads (s : string) (options : kwargs_t)
| EvGetattr (o : pyval) (attr : string)
| EvCall (f : pyval) (arg : pyval)
| EvEngineValidate (value schema cls : pyval)
| EvSuperValidate (self : loc) (value model_instance : pyval)
| EvSuperDeconstruct (self : loc).

Record state := State { heap : heap_t; trace : list event }.

Definition M (A : Type) := state -> outcome A * state.

Definition ret {A} (a : A) : M A := fun st => (Ret a, st).
Definition raise {A} (e : exn) : M A := fun st => (Raise e, st).
Definition bind {A B} (m : M A) (k : A -> M B) : M B :=
  fun st => match m st with
            | (Ret a, st') => k a st'
            | (Raise e, st') => (Raise e, st')
            end.

(** [try: m except h]: a handler that returns [None] for an exception
    stands for an [except] list that does not match it. *)
Definition try_except {A} (m : M A) (h : exn -> option (M A)) : M A :=
  fun st => match m st with
            | (Ret a, st') => (Ret a, st')
            | (Raise e, st') =>
                match h e with
                | Some k => k st'
                | None => (Raise e, st')
                end
            end.

Notation "x <-- m ;; k" := (bind m (fun x => k))
  (at level 100, m at next level, right associativity).
Notation "m ;;; k" := (bind m (fun _ => k))
  (at level 100, right associativity).

(** An external call: an effect on the heap that is logged in the trace. *)
Definition extcall {A} (ev : event) (f : heap_t -> outcome A * heap_t) : M A :=
  fun st => let '(r, h) := f (heap st) in
            (r, State h (trace st ++ [ev])).

(** ** Heap primitives *)

Definition fresh_loc (h : heap_t) : loc := fresh (dom h : gset positive).

Definition alloc (o : obj) : M loc :=
  fun st => let l := fresh_loc (heap st) in
            (Ret l, State (<[l := o]> (heap st)) (trace st)).

(** [self.name] on an instance of this module's classes. *)
Definition read_attr (self : loc) (name : string) : M pyval :=
  fun st => match heap st !! self with
            | Some (OInst c attrs) =>
                match attrs !! name with
                | Some v => (Ret v, st)
                | None => (Raise (AttributeError name), st)
                end
            | _ => (Raise (AttributeError name), st)
            end.

(** [self.name = v]. *)
Definition write_attr (self : loc) (name : string) (v : pyval) : M unit :=
  fun st => match heap st !! self with
            | Some (OInst c attrs) =>
                (Ret tt, State (<[self := OInst c (<[name := v]> attrs)]> (heap st)) (trace st))
            | _ => (Raise (AttributeError name), st)
            end.

(** [d[key] = v]. *)
Definition set_item (d : pyval) (key : string) (v : pyval) : M unit :=
  fun st => match d with
            | VRef l =>
                match heap st !! l with
                | Some (ODict items) =>
                    (Ret tt, State (<[l := ODict (<[key := v]> items)]> (heap st)) (trace st))
                | _ => (Raise (TypeError "object does not support item assignment"), st)
                end
            | _ => (Raise (TypeError "object does not support item assignment"), st)
            end.

(** Python truthiness of a value, as used by [if self.encoder]. *)
Definition truthy (h : heap_t) (v : pyval) : bool :=
  match v with
  | VNone => false
  | VBool b => b
  | VInt z => negb (Z.eqb z 0)
  | VStr s => negb (String.eqb s EmptyString)
  | VRef l =>
      match h !! l with
      | Some (ODict items) => negb (bool_decide (items = ∅))
      | Some (OList elems) => negb (bool_decide (elems = []))
      | _ => true
      end
  end.

(** ** [str.split('.')] *)

Fixpoint split_aux (sep : ascii) (s : string) (cur : string) : list string :=
  match s with
  | EmptyString => [cur]
  | String c rest =>
      if Ascii.eqb c sep then cur :: split_aux sep rest EmptyString
      else split_aux sep rest (cur ++ String c EmptyString)
  end.

Definition split (sep : ascii) (s : string) : list string := split_aux sep s EmptyString.

(** ** The world outside the module

    Each external entry point is a heap transformer that returns or
    raises. *)
Record World := {
  w_super_init : loc -> list pyval -> kwargs_t -> heap_t -> outcome unit * heap_t;
  w_json_loads : string -> kwargs_t -> heap_t -> outcome pyval * heap_t;
  w_getattr : pyval -> string -> heap_t -> outcome pyval * heap_t;
  w_call : pyval -> pyval -> heap_t -> outcome pyval * heap_t;
  w_validate : pyval -> pyval -> pyval -> heap_t -> outcome unit * heap_t;
  w_super_validate : loc -> pyval -> pyval -> heap_t -> outcome unit * heap_t;
  w_super_deconstruct : loc -> heap_t -> outcome (pyval * pyval * pyval * pyval) * heap_t;
  w_class_callable : string -> bool
}.

(** [callable(v)]; [class_callable] tells which host classes define
    [__call__]. *)
Definition callable (class_callable : string -> bool) (h : heap_t) (v : pyval) : bool :=
  match v with
  | VRef l =>
      match h !! l with
      | Some (OInst c _) => if String.eqb c "FieldReference" then true else class_callable c
      | Some (OFunction _) => true
      | Some (OClass _ _) => true
      | _ => false
      end
  | _ => false
  end.

Section Fields.
Variable W : World.

Definition get_heap : M heap_t := fun st => (Ret (heap st), st).

(** *** class FieldReference *)

(** [FieldReference.__init__(self, source)] *)
Definition FieldReference_init (self : loc) (source : string) : M unit :=
  segs <-- alloc (OList (VStr <$> split "." source)) ;;
  write_attr self "source" (VRef segs).

(** [FieldReference(source=s)] *)
Definition FieldReference_new (source : string) : M pyval :=
  self <-- alloc (OInst "FieldReference" ∅) ;;
  FieldReference_init self source ;;;
  ret (VRef self).

(** [getattr(o, attr)] *)
Definition getattr (o : pyval) (attr : pyval) : M pyval :=
  match attr with
  | VStr a => extcall (EvGetattr o a) (w_getattr W o a)
  | _ => raise (TypeError "attribute name must be string")
  end.

(** The body of [for attr in ...: obj = getattr(obj, attr)]. *)
Fixpoint walk (attrs : list pyval) (o : pyval) : M pyval :=
  match attrs with
  | [] => ret o
  | attr :: rest => o' <-- getattr o attr ;; walk rest o'
  end.

(** The elements of [v] when it is a list, as they are when the loop
    starts. *)
Definition iter (v : pyval) : M (list pyval) :=
  fun st => match v with
            | VRef l =>
                match heap st !! l with
                | Some (OList elems) => (Ret elems, st)
                | _ => (Raise (TypeError "object is not iterable"), st)
                end
            | _ => (Raise (TypeError "object is not iterable"), st)
            end.

(** [FieldReference.__call__(self, instance)] *)
Definition FieldReference_call (self : loc) (instance : pyval) : M pyval :=
  source <-- read_attr self "source" ;;
  attrs <-- iter source ;;
  walk attrs instance.

(** *** class JSONSchemaField(JSONField) *)

Definition is_FieldReference (h : heap_t) (v : pyval) : option loc :=
  match v with
  | VRef l =>
      match h !! l with
      | Some (OInst c _) => if String.eqb c "FieldReference" then Some l else None
      | _ => None
      end
  | _ => None
  end.

(** [f(arg)] for a callable [f]: this module's [FieldReference.__call__]
    or a call into host code. *)
Definition call (f : pyval) (arg : pyval) : M pyval :=
  h <-- get_heap ;;
  match is_FieldReference h f with
  | Some l => FieldReference_call l arg
  | None => extcall (EvCall f arg) (w_call W f arg)
  end.

(** [JSONSchemaField.__init__(self, schema, format_checker, *args, **kwargs)] *)
Definition JSONSchemaField_init (self : loc) (schema format_checker : pyval)
    (args : list pyval) (kwargs : kwargs_t) : M unit :=
  extcall (EvSuperInit self args kwargs) (w_super_init W self args kwargs) ;;;
  write_attr self "_schema_kwarg" schema ;;;
  schema' <--
    match schema with
    | VNone => d <-- alloc (ODict ∅) ;; ret (VRef d)
    | VStr s =>
        encoder <-- read_attr self "encoder" ;;
        h <-- get_heap ;;
        options <--
          (if truthy h encoder
           then encoder' <-- read_attr self "encoder" ;; ret [("cls", encoder')]
           else ret []) ;;
        try_except
          (extcall (EvJsonLoads s options) (w_json_loads W s options))
          (fun e => match e with
                    | JSONDecodeError _ => Some (FieldReference_new s)
                    | _ => None
                    end)
    | _ => ret schema
    end ;;
  write_attr self "format_checker" format_checker ;;;
  write_attr self "_schema" schema'.

(** [JSONSchemaField(schema, format_checker, *args, **kwargs)] *)
Definition JSONSchemaField_new (schema format_checker : pyval)
    (args : list pyval) (kwargs : kwargs_t) : M loc :=
  self <-- alloc (OInst "JSONSchemaField" ∅) ;;
  JSONSchemaField_init self schema format_checker args kwargs ;;;
  ret self.

(** [JSONSchemaField.get_schema(self, model_instance)] *)
Definition get_schema (self : loc) (model_instance : pyval) : M pyval :=
  schema <-- read_attr self "_schema" ;;
  h <-- get_heap ;;
  if callable (w_class_callable W) h schema then call schema model_instance else ret schema.

(** [JSONSchemaField.validate_against_schema(self, value, model_instance)] *)
Definition validate_against_schema (self : loc) (value model_instance : pyval) : M unit :=
  schema <-- get_schema self model_instance ;;
  try_except
    (cls <-- read_attr self "format_checker" ;;
     extcall (EvEngineValidate value schema cls) (w_validate W value schema cls))
    (fun e => match e with
              | jsonschema_ValidationError message =>
                  Some (raise (ValidationError message "invalid_data"))
              | jsonschema_SchemaError message =>
                  Some (raise (ValidationError message "invalid_schema_definition"))
              | _ => None
              end).

(** [JSONSchemaField.validate(self, value, model_instance)] *)
Definition validate (self : loc) (value model_instance : pyval) : M unit :=
  extcall (EvSuperValidate self value model_instance)
          (w_super_validate W self value model_instance) ;;;
  validate_against_schema self value model_instance.

(** [JSONSchemaField.deconstruct(self)] *)
Definition deconstruct (self : loc) : M (pyval * pyval * pyval * pyval) :=
  r <-- extcall (EvSuperDeconstruct self) (w_super_deconstruct W self) ;;
  let '(name, path, args, kwargs) := r in
  schema_kwarg <-- read_attr self "_schema_kwarg" ;;
  set_item kwargs "schema" schema_kwarg ;;;
  format_checker <-- read_attr self "format_checker" ;;
  set_item kwargs "format_checker" format_checker ;;;
  ret (name, path, args, kwargs).

End Fields.

(** ** Stored state of a field and path references *)

(** The value of attribute [name] of the instance at [l]. *)
Definition field_attr (h : heap_t) (l : loc) (name : string) : option pyval :=
  match h !! l with
  | Some (OInst _ attrs) => attrs !! name
  | _ => None
  end.

(** [v] is a [FieldReference] whose [source] is the list of [segs]. *)
Definition path_reference (h : heap_t) (v : pyval) (segs : list string) : Prop :=
  exists l ls attrs,
    v = VRef l /\ h !! l = Some (OInst "FieldReference" attrs) /\
    attrs !! "source" = Some (VRef ls) /\ h !! ls = Some (OList (VStr <$> segs)).

(** [v] is a mapping. *)
Definition is_mapping (h : heap_t) (v : pyval) : Prop :=
  exists l items, v = VRef l /\ h !! l = Some (ODict items).

Definition is_json_loads (ev : event) : bool :=
  match ev with EvJsonLoads _ _ => true | _ => false end.

(** Sequential attribute reads along [segs], starting from [o] in heap
    [h]: the calls made, the final value and the final heap. *)
Inductive attr_chain (W : World) :
  list string -> pyval -> heap_t -> list event -> pyval -> heap_t -> Prop :=
| chain_nil o h : attr_chain W [] o h [] o h
| chain_cons a segs o h o1 h1 evs o' h' :
    w_getattr W o a h = (Ret o1, h1) ->
    attr_chain W segs o1 h1 evs o' h' ->
    attr_chain W (a :: segs) o h (EvGetattr o a :: evs) o' h'.

(** An external entry point leaves the object stored at [l] alone. *)
Definition keeps {A} (l : loc) (f : heap_t -> outcome A * heap_t) : Prop :=
  forall h o, h !! l = Some o -> (f h).2 !! l = Some o.


(** Every run of [m] relates the state before to the state after. *)
Definition step_invariant (R : state -> state -> Prop) {A} (m : M A) : Prop :=
  forall st, R st (m st).2.

(** No call to [json.loads] between two states. *)
Definition no_json_loads (st st' : state) : Prop :=
  List.filter is_json_loads (trace st') = List.filter is_json_loads (trace st).

(** The object stored at [l] is the same in both states. *)
Definition same_object (l : loc) (st st' : state) : Prop :=
  forall o, heap st !! l = Some o -> heap st' !! l = Some o.

(** The instance stored at [l] is the same in both states. *)
Definition same_instance (l : loc) (st st' : state) : Prop :=
  forall c attrs, heap st !! l = Some (OInst c attrs) ->
                  heap st' !! l = Some (OInst c attrs).

(** ** A reference world

    A concrete world used to run the module on examples: plain instance
    attributes for the host object model, a decoder for JSON texts, a
    JSON Schema engine for the keywords [type] and [$ref], and the parts of
    the base column class that the module relies on. *)
Module Reference.

Definition dquote : ascii := ascii_of_nat 34.
Definition quoted (s : string) : string := String dquote (s ++ String dquote EmptyString).

(** *** [json.loads] *)

Inductive json :=
| JNull
| JBool (b : bool)
| JInt (z : Z)
| JStr (s : string)
| JArr (elems : jarr)
| JObj (members : jobj)
with jarr :=
| ENil
| ECons (j : json) (rest : jarr)
with jobj :=
| MNil
| MCons (key : string) (j : json) (rest : jobj).

(** Result of a parsing step: a value and the remaining text, a decode
    error, or a text with a float literal or a [\u] escape, which this
    decoder does not cover. *)
Inductive parsed (A : Type) :=
| POk (a : A) (rest : string)
| PBad
| PUncovered.
Arguments POk {A} a rest.
Arguments PBad {A}.
Arguments PUncovered {A}.

Definition is_ws (c : ascii) : bool :=
  let n := nat_of_ascii c in
  Nat.eqb n 32 || Nat.eqb n 9 || Nat.eqb n 10 || Nat.eqb n 13.

Definition is_digit (c : ascii) : bool :=
  let n := nat_of_ascii c in Nat.leb 48 n && Nat.leb n 57.

Fixpoint skip_ws (s : string) : string :=
  match s with
  | String c rest => if is_ws c then skip_ws rest else s
  | EmptyString => s
  end.

(** The digits at the head of [s]: their value, their number, the rest. *)
Fixpoint digits (s : string) (acc : Z) (n : nat) : Z * nat * string :=
  match s with
  | String c rest =>
      if is_digit c
      then digits rest (10 * acc + Z.of_nat (nat_of_ascii c - 48)) (S n)
      else (acc, n, s)
  | EmptyString => (acc, n, s)
  end.

Definition starts_digit (s : string) : bool :=
  match s with String c _ => is_digit c | EmptyString => false end.

(** Does a fraction or an exponent follow the integer part? *)
Definition float_tail (s : string) : bool :=
  match s with
  | String "." rest => starts_digit rest
  | String "e" rest | String "E" rest =>
      match rest with
      | String "+" rest' | String "-" rest' => starts_digit rest'
      | _ => starts_digit rest
      end
  | _ => false
  end.

Definition parse_nat (s : string) : parsed Z :=
  match s with
  | String "0" rest => POk 0%Z rest
  | _ => let '(z, n, rest) := digits s 0%Z 0 in
         match n with 0 => PBad | S _ => POk z rest end
  end.

Definition parse_number (s : string) : parsed json :=
  let '(sign, body) :=
    match s with String "-" rest => ((-1)%Z, rest) | _ => (1%Z, s) end in
  match parse_nat body with
  | POk z rest => if float_tail rest then PUncovered else POk (JInt (sign * z)) rest
  | PBad => PBad
  | PUncovered => PUncovered
  end.

(** The text after an opening quote, up to the closing quote. *)
Fixpoint parse_string (s : string) (acc : string) : parsed string :=
  match s with
  | EmptyString => PBad
  | String c rest =>
      if Ascii.eqb c dquote then POk acc rest
      else if Ascii.eqb c "\" then
        match rest with
        | String e rest' =>
            let continue (n : nat) := parse_string rest' (acc ++ String (ascii_of_nat n) EmptyString) in
            if Ascii.eqb e dquote then continue 34
            else if Ascii.eqb e "\" then continue 92
            else if Ascii.eqb e "/" then continue 47
            else if Ascii.eqb e "b" then continue 8
            else if Ascii.eqb e "f" then continue 12
            else if Ascii.eqb e "n" then continue 10
            else if Ascii.eqb e "r" then continue 13
            else if Ascii.eqb e "t" then continue 9
            else if Ascii.eqb e "u" then PUncovered
            else PBad
        | EmptyString => PBad
        end
      else if Nat.ltb (nat_of_ascii c) 32 then PBad
      else parse_string rest (acc ++ String c EmptyString)
  end.

Fixpoint parse_value (fuel : nat) (s : string) : parsed json :=
  match fuel with
  | 0 => PBad
  | S fuel' =>
      match s with
      | EmptyString => PBad
      | String c rest =>
          if Ascii.eqb c dquote then
            match parse_string rest EmptyString with
            | POk k rest' => POk (JStr k) rest'
            | PBad => PBad
            | PUncovered => PUncovered
            end
          else if Ascii.eqb c "[" then
            match skip_ws rest with
            | String "]" rest' => POk (JArr ENil) rest'
            | body =>
                match parse_elems fuel' body with
                | POk a rest' => POk (JArr a) rest'
                | PBad => PBad
                | PUncovered => PUncovered
                end
            end
          else if Ascii.eqb c "{" then
            match skip_ws rest with
            | String "}" rest' => POk (JObj MNil) rest'
            | body =>
                match parse_members fuel' body with
                | POk m rest' => POk (JObj m) rest'
                | PBad => PBad
                | PUncovered => PUncovered
                end
            end
          else if String.prefix "null" s then POk JNull (String.substring 4 (String.length s - 4) s)
          else if String.prefix "true" s then POk (JBool true) (String.substring 4 (String.length s - 4) s)
          else if String.prefix "false" s then POk (JBool false) (String.substring 5 (String.length s - 5) s)
          else if String.prefix "NaN" s || String.prefix "Infinity" s || String.prefix "-Infinity" s
               then PUncovered
          else parse_number s
      end
  end
with parse_elems (fuel : nat) (s : string) : parsed jarr :=
  match fuel with
  | 0 => PBad
  | S fuel' =>
      match parse_value fuel' s with
      | POk j rest =>
          match skip_ws rest with
          | String "]" rest' => POk (ECons j ENil) rest'
          | String "," rest' =>
              match parse_elems fuel' (skip_ws rest') with
              | POk more rest'' => POk (ECons j more) rest''
              | PBad => PBad
              | PUncovered => PUncovered
              end
          | _ => PBad
          end
      | PBad => PBad
      | PUncovered => PUncovered
      end
  end
with parse_members (fuel : nat) (s : string) : parsed jobj :=
  match fuel with
  | 0 => PBad
  | S fuel' =>
      match s with
      | String c rest =>
          if Ascii.eqb c dquote then
            match parse_string rest EmptyString with
            | POk key rest1 =>
                match skip_ws rest1 with
                | String ":" rest2 =>
                    match parse_value fuel' (skip_ws rest2) with
                    | POk j rest3 =>
                        match skip_ws rest3 with
                        | String "}" rest4 => POk (MCons key j MNil) rest4
                        | String "," rest4 =>
                            match parse_members fuel' (skip_ws rest4) with
                            | POk more rest5 => POk (MCons key j more) rest5
                            | PBad => PBad
                            | PUncovered => PUncovered
                            end
                        | _ => PBad
                        end
                    | PBad => PBad
                    | PUncovered => PUncovered
                    end
                | _ => PBad
                end
            | PBad => PBad
            | PUncovered => PUncovered
            end
          else PBad
      | EmptyString => PBad
      end
  end.

(** The whole text is one JSON value between optional white space. *)
Definition decode (s : string) : parsed json :=
  match parse_value (2 * String.length s + 2) (skip_ws s) with
  | POk j rest =>
      match skip_ws rest with
      | EmptyString => POk j EmptyString
      | _ => PBad
      end
  | PBad => PBad
  | PUncovered => PUncovered
  end.

(** The Python value of a JSON value: containers are new objects; a
    repeated member name keeps its last value. *)
Fixpoint reify (j : json) (h : heap_t) : pyval * heap_t :=
  match j with
  | JNull => (VNone, h)
  | JBool b => (VBool b, h)
  | JInt z => (VInt z, h)
  | JStr s => (VStr s, h)
  | JArr a =>
      let '(vs, h1) := reify_arr a h in
      let l := fresh_loc h1 in (VRef l, <[l := OList vs]> h1)
  | JObj m =>
      let '(items, h1) := reify_obj m ∅ h in
      let l := fresh_loc h1 in (VRef l, <[l := ODict items]> h1)
  end
with reify_arr (a : jarr) (h : heap_t) : list pyval * heap_t :=
  match a with
  | ENil => ([], h)
  | ECons j rest =>
      let '(v, h1) := reify j h in
      let '(vs, h2) := reify_arr rest h1 in
      (v :: vs, h2)
  end
with reify_obj (m : jobj) (acc : gmap string pyval) (h : heap_t)
  : gmap string pyval * heap_t :=
  match m with
  | MNil => (acc, h)
  | MCons key j rest =>
      let '(v, h1) := reify j h in
      reify_obj rest (<[key := v]> acc) h1
  end.

Definition lookup_kw (k : string) (kw : kwargs_t) : option pyval :=
  snd <$> List.find (fun p => String.eqb (fst p) k) kw.

(** [json.loads] with a [cls] option instantiates that class and calls
    its [decode] method ([JSONDecoder] by default): a class without a
    [decode] method fails with [AttributeError] on the attribute access. *)
Definition json_loads (s : string) (options : kwargs_t) (h : heap_t)
  : outcome pyval * heap_t :=
  let run :=
    match decode s with
    | POk j _ => let '(v, h') := reify j h in (Ret v, h')
    | PBad => (Raise (JSONDecodeError "Expecting value"), h)
    | PUncovered => (Raise (OtherError "NotImplementedError" "float literal or \u escape"), h)
    end in
  match lookup_kw "cls" options with
  | None | Some VNone => run
  | Some (VRef l) =>
      match h !! l with
      | Some (OClass name methods) =>
          if bool_decide ("decode" ∈ methods) then run
          else (Raise (AttributeError "decode"), h)
      | _ => (Raise (TypeError "object is not callable"), h)
      end
  | Some _ => (Raise (TypeError "object is not callable"), h)
  end.

(** *** The host object model and user callables *)

(** [getattr(o, attr)]: instance attributes only. *)
Definition getattr (o : pyval) (attr : string) (h : heap_t) : outcome pyval * heap_t :=
  match o with
  | VRef l =>
      match h !! l with
      | Some (OInst _ attrs) =>
          match attrs !! attr with
          | Some v => (Ret v, h)
          | None => (Raise (AttributeError attr), h)
          end
      | _ => (Raise (AttributeError attr), h)
      end
  | _ => (Raise (AttributeError attr), h)
  end.

(** [f(arg)]: a function object is named by its source text; calling a
    class makes an instance. *)
Definition call (f arg : pyval) (h : heap_t) : outcome pyval * heap_t :=
  match f with
  | VRef l =>
      match h !! l with
      | Some (OFunction src) =>
          if String.eqb src "lambda instance: {'type': 'string'}" then
            let d := fresh_loc h in
            (Ret (VRef d), <[d := ODict {[ "type" := VStr "string" ]}]> h)
          else if String.eqb src "lambda instance: 1 // 0" then
            (Raise (OtherError "ZeroDivisionError" "integer division or modulo by zero"), h)
          else (Raise (OtherError "NotImplementedError" src), h)
      | Some (OClass name _) =>
          let i := fresh_loc h in (Ret (VRef i), <[i := OInst name ∅]> h)
      | _ => (Raise (TypeError "object is not callable"), h)
      end
  | _ => (Raise (TypeError "object is not callable"), h)
  end.

(** *** [jsonschema.validate] for the keywords [type] and [$ref] *)

Definition repr (v : pyval) : string :=
  match v with
  | VNone => "None"
  | VBool true => "True"
  | VBool false => "False"
  | VInt z => NilZero.string_of_int (Z.to_int z)
  | VStr s => "'" ++ s ++ "'"
  | VRef _ => "<object>"
  end.

Definition type_names : list string :=
  ["array"; "boolean"; "integer"; "null"; "number"; "object"; "string"].

Definition has_type (h : heap_t) (t : string) (v : pyval) : bool :=
  match v with
  | VNone => String.eqb t "null"
  | VBool _ => String.eqb t "boolean"
  | VInt _ => String.eqb t "integer" || String.eqb t "number"
  | VStr _ => String.eqb t "string"
  | VRef l =>
      match h !! l with
      | Some (ODict _) => String.eqb t "object"
      | Some (OList _) => String.eqb t "array"
      | _ => false
      end
  end.

(** The schema a local reference [#/definitions/NAME] points to. *)
Definition resolve (h : heap_t) (items : gmap string pyval) (r : string) : option pyval :=
  if String.prefix "#/definitions/" r then
    match items !! "definitions" with
    | Some (VRef d) =>
        match h !! d with
        | Some (ODict defs) => defs !! String.substring 14 (String.length r - 14) r
        | _ => None
        end
    | _ => None
    end
  else None.

(** The engine's error for a reference that points nowhere; the message
    shows the pointer without its leading [#/]. *)
Definition unresolvable (r : string) : exn :=
  OtherError "jsonschema.exceptions.RefResolutionError"
             ("Unresolvable JSON pointer: "
                ++ repr (VStr (String.substring 2 (String.length r - 2) r))).

Fixpoint engine (fuel : nat) (h : heap_t) (value schema : pyval) : outcome unit :=
  match fuel with
  | 0 => Raise (OtherError "RecursionError" "maximum recursion depth exceeded")
  | S fuel' =>
      match schema with
      | VBool true => Ret tt
      | VBool false =>
          Raise (jsonschema_ValidationError ("False schema does not allow " ++ repr value))
      | VRef l =>
          match h !! l with
          | Some (ODict items) =>
              match items !! "type" with
              | Some (VStr t) =>
                  if bool_decide (t ∈ type_names) then
                    match items !! "$ref" with
                    | Some (VStr r) =>
                        match resolve h items r with
                        | Some target => engine fuel' h value target
                        | None =>
                            Raise (unresolvable r)
                        end
                    | Some other =>
                        Raise (jsonschema_SchemaError (repr other ++ " is not of type 'string'"))
                    | None =>
                        if has_type h t value then Ret tt
                        else Raise (jsonschema_ValidationError
                                      (repr value ++ " is not of type " ++ repr (VStr t)))
                    end
                  else Raise (jsonschema_SchemaError
                                (repr (VStr t) ++ " is not valid under any of the given schemas"))
              | Some other =>
                  Raise (jsonschema_SchemaError
                           (repr other ++ " is not valid under any of the given schemas"))
              | None =>
                  match items !! "$ref" with
                  | Some (VStr r) =>
                      match resolve h items r with
                      | Some target => engine fuel' h value target
                      | None =>
                          Raise (unresolvable r)
                      end
                  | Some other =>
                      Raise (jsonschema_SchemaError (repr other ++ " is not of type 'string'"))
                  | None => Ret tt
                  end
              end
          | _ => Raise (AttributeError "get")
          end
      | VStr _ => Raise (AttributeError "get")
      | _ => Raise (TypeError "argument is not iterable")
      end
  end.

(** [jsonschema.validate(value, schema, cls=cls)]; a given validator class
    must offer [check_schema]. *)
Definition validate (value schema cls : pyval) (h : heap_t) : outcome unit * heap_t :=
  let run := (engine (S (size h)) h value schema, h) in
  match cls with
  | VNone => run
  | VRef l =>
      match h !! l with
      | Some (OClass _ methods) =>
          if bool_decide ("check_schema" ∈ methods) then run
          else (Raise (AttributeError "check_schema"), h)
      | _ => (Raise (AttributeError "check_schema"), h)
      end
  | _ => (Raise (AttributeError "check_schema"), h)
  end.

(** *** The base column class *)

Definition arg (i : nat) (key : string) (args : list pyval) (kwargs : kwargs_t) : pyval :=
  match lookup_kw key kwargs with
  | Some v => v
  | None => nth i args VNone
  end.

Definition flag (key : string) (kwargs : kwargs_t) : pyval :=
  match lookup_kw key kwargs with Some v => v | None => VBool false end.

(** [JSONField.__init__(self, verbose_name, name, encoder, **kwargs)]: the
    attributes that this module and the methods below read. *)
Definition super_init (self : loc) (args : list pyval) (kwargs : kwargs_t) (h : heap_t)
  : outcome unit * heap_t :=
  let encoder := arg 2 "encoder" args kwargs in
  if truthy h encoder && negb (callable (fun _ => false) h encoder)
  then (Raise (OtherError "ValueError" "The encoder parameter must be a callable object."), h)
  else
    match h !! self with
    | Some (OInst c attrs) =>
        (Ret tt,
         <[self := OInst c (<["blank" := flag "blank" kwargs]>
                           (<["null" := flag "null" kwargs]>
                           (<["name" := arg 1 "name" args kwargs]>
                           (<["encoder" := encoder]> attrs))))]> h)
    | _ => (Raise (TypeError "not an instance"), h)
    end.

(** Can [json.dumps] serialise [v]?  [None] stands for a circular
    structure. *)
Fixpoint serialisable (fuel : nat) (h : heap_t) (v : pyval) : option bool :=
  match v with
  | VRef l =>
      match fuel with
      | 0 => None
      | S fuel' =>
          let all (vs : list pyval) :=
            foldr (fun v acc => match serialisable fuel' h v with
                                | Some true => acc
                                | r => r
                                end) (Some true) vs in
          match h !! l with
          | Some (ODict items) => all (snd <$> map_to_list items)
          | Some (OList elems) => all elems
          | _ => Some false
          end
      end
  | _ => Some true
  end.

Definition is_empty_value (h : heap_t) (v : pyval) : bool :=
  match v with
  | VNone => true
  | VStr s => String.eqb s EmptyString
  | VRef l =>
      match h !! l with
      | Some (ODict items) => bool_decide (items = ∅)
      | Some (OList elems) => bool_decide (elems = [])
      | _ => false
      end
  | _ => false
  end.

(** [JSONField.validate(self, value, model_instance)]: the [null] and
    [blank] checks of [Field.validate], then the [json.dumps] check. *)
Definition super_validate (self : loc) (value model_instance : pyval) (h : heap_t)
  : outcome unit * heap_t :=
  let attr name := default (VBool false) (field_attr h self name) in
  if bool_decide (value = VNone :> pyval) && negb (truthy h (attr "null"))
  then (Raise (ValidationError "This field cannot be null." "null"), h)
  else if negb (truthy h (attr "blank")) && is_empty_value h value
  then (Raise (ValidationError "This field cannot be blank." "blank"), h)
  else
    match serialisable (S (size h)) h value with
    | Some true => (Ret tt, h)
    | Some false => (Raise (ValidationError "Value must be valid JSON." "invalid"), h)
    | None => (Raise (OtherError "ValueError" "Circular reference detected"), h)
    end.

(** [JSONField.deconstruct(self)]: new [args] and [kwargs] objects; the
    keyword arguments are the attributes that differ from their default. *)
Definition super_deconstruct (self : loc) (h : heap_t)
  : outcome (pyval * pyval * pyval * pyval) * heap_t :=
  let attr name := default VNone (field_attr h self name) in
  let keep name (kw : gmap string pyval) :=
    if truthy h (attr name) then <[name := attr name]> kw else kw in
  let kw0 := keep "null" (keep "blank" ∅) in
  let kw := match attr "encoder" with VNone => kw0 | e => <["encoder" := e]> kw0 end in
  let la := fresh_loc h in
  let h1 := <[la := OList []]> h in
  let lk := fresh_loc h1 in
  (Ret (attr "name", VStr "models.fields.JSONSchemaField", VRef la, VRef lk),
   <[lk := ODict kw]> h1).

Definition world : World := {|
  w_super_init := super_init;
  w_json_loads := json_loads;
  w_getattr := getattr;
  w_call := call;
  w_validate := validate;
  w_super_validate := super_validate;
  w_super_deconstruct := super_deconstruct;
  w_class_callable := fun _ => false
|}.

End Reference.

(** ** Example objects and fields *)
Module Examples.

(** A heap with two related model instances ([1].a is [2], [2].b is 5),
    three schema mappings, an encoder class and two functions. *)
Definition heap0 : heap_t :=
  list_to_map
    [ (1%positive, OInst "ModelB" {[ "a" := VRef 2 ]});
      (2%positive, OInst "ModelA" {[ "b" := VInt 5 ]});
      (3%positive, ODict {[ "type" := VStr "integer" ]});
      (4%positive, ODict {[ "type" := VInt 123 ]});
      (5%positive, ODict {[ "$ref" := VStr "#/definitions/missing" ]});
      (6%positive, OClass "DjangoJSONEncoder" ["default"; "encode"; "iterencode"]);
      (7%positive, OFunction "lambda instance: {'type': 'string'}");
      (8%positive, OFunction "lambda instance: 1 // 0") ].

Definition world : World := Reference.world.

(** [JSONSchemaField(schema, **kwargs)] evaluated in [heap0]. *)
Definition declare (schema : pyval) (kwargs : kwargs_t) : outcome loc * state :=
  JSONSchemaField_new world schema VNone [] kwargs (State heap0 []).

(** The state after the declaration; the new field is object [9]. *)
Definition declared (schema : pyval) : state := (declare schema []).2.

(** The state in which [__init__] runs: [heap0] with the new, empty
    field instance [9]. *)
Definition allocated : state :=
  State (<[9%positive := OInst "JSONSchemaField" ∅]> heap0) [].

(** The object stored at [9], the field. *)
Definition field_of (st : state) : obj := default (OClass EmptyString []) (heap st !! 9%positive).

End Examples.

(** ** Induction principle and tactics *)

Scheme json_mut := Induction for Reference.json Sort Prop
  with jarr_mut := Induction for Reference.jarr Sort Prop
  with jobj_mut := Induction for Reference.jobj Sort Prop.
Combined Scheme json_mutind from json_mut, jarr_mut, jobj_mut.

(** Lookups in attribute maps built by successive assignments. *)
Ltac attr_lookup :=
  repeat first [rewrite lookup_insert_eq | rewrite lookup_insert_ne by done].

(** Evaluation of a closed example. *)
Ltac run := vm_compute; reflexivity.

(** ** Segments of a dotted path *)

(** Does [c] occur in [s]? *)
Fixpoint contains (c : ascii) (s : string) : bool :=
  match s with
  | EmptyString => false
  | String c' rest => Ascii.eqb c' c || contains c rest
  end.

(** The number of occurrences of [c] in [s]. *)
Fixpoint occurrences (c : ascii) (s : string) : nat :=
  match s with
  | EmptyString => 0
  | String c' rest => (if Ascii.eqb c' c then 1 else 0) + occurrences c rest
  end.

(** [sep.join(segs)], the inverse of [split]. *)
Fixpoint join (sep : ascii) (segs : list string) : string :=
  match segs with
  | [] => EmptyString
  | [x] => x
  | x :: rest => x ++ String sep (join sep rest)
  end.

(** ** Calling the constructor

    The signature is
    [__init__(self, schema=None, format_checker=None, *args, **kwargs)]:
    the first two positional arguments or the keywords of those names are
    the spec and the format checker, everything else goes to the base
    class. *)

(** The value passed for keyword [k], if any. *)
Definition keyword (k : string) (kw : kwargs_t) : option pyval :=
  snd <$> List.find (fun p => String.eqb (fst p) k) kw.

Definition own_keyword (k : string) : bool :=
  String.eqb k "schema" || String.eqb k "format_checker".

(** The parameters bound by a call with positional arguments [pos] and
    keyword arguments [kw]: [schema], [format_checker], [args], [kwargs]. *)
Definition bind_arguments (pos : list pyval) (kw : kwargs_t)
  : exn + (pyval * pyval * list pyval * kwargs_t) :=
  let rest := List.filter (fun p => negb (own_keyword (fst p))) kw in
  let multiple name := TypeError ("got multiple values for argument " ++ name) in
  match pos with
  | [] =>
      inr (default VNone (keyword "schema" kw),
           default VNone (keyword "format_checker" kw), [], rest)
  | [schema] =>
      match keyword "schema" kw with
      | Some _ => inl (multiple "'schema'")
      | None => inr (schema, default VNone (keyword "format_checker" kw), [], rest)
      end
  | schema :: format_checker :: args =>
      match keyword "schema" kw, keyword "format_checker" kw with
      | Some _, _ => inl (multiple "'schema'")
      | None, Some _ => inl (multiple "'format_checker'")
      | None, None => inr (schema, format_checker, args, rest)
      end
  end.

(** [JSONSchemaField.__init__(self, *pos, **kw)] *)
Definition JSONSchemaField_call (W : World) (self : loc)
    (pos : list pyval) (kw : kwargs_t) : M unit :=
  match bind_arguments pos kw with
  | inl e => raise e
  | inr (schema, format_checker, args, kwargs) =>
      JSONSchemaField_init W self schema format_checker args kwargs
  end.

(** ** More example states *)
Module MoreExamples.
Import Examples.

(** The heap after the base initialiser has run on the new field [9] with
    keyword arguments [kw], and the attributes it has set. *)
Definition initialised (kw : kwargs_t) : heap_t :=
  (w_super_init world 9 [] kw (heap allocated)).2.

Definition base_attrs (kw : kwargs_t) : gmap string pyval :=
  match initialised kw !! 9%positive with
  | Some (OInst _ attrs) => attrs
  | _ => ∅
  end.

(** The state after deconstructing the field declared with ["a.b"], the
    keyword arguments returned, and the same state with a new, empty
    field instance [14]. *)
Definition deconstructed : state := (deconstruct world 9 (declared (VStr "a.b"))).2.

Definition returned_kwargs : gmap string pyval :=
  <["format_checker" := VNone]> (<["schema" := VStr "a.b"]> ∅).

Definition second : state :=
  State (<[14%positive := OInst "JSONSchemaField" ∅]> (heap deconstructed))
        (trace deconstructed).

End MoreExamples.
(** ** Basic facts *)

Local Open Scope list_scope.

Example split_ab : split "." "a.b" = ["a"; "b"].
Proof. reflexivity. Qed.
Example split_empty : split "." EmptyString = [EmptyString].
Proof. reflexivity. Qed.
Example split_gap : split "." "a..b." = ["a"; EmptyString; "b"; EmptyString].
Proof. reflexivity. Qed.

Lemma fresh_loc_None (h : heap_t) : h !! fresh_loc h = None.
Proof. unfold fresh_loc. apply (not_elem_of_dom (D := gset positive)). apply is_fresh. Qed.


Lemma bind_ret_eq {A B} (m : M A) (k : A -> M B) st a st' :
  m st = (Ret a, st') -> bind m k st = k a st'.
Proof. intros H. unfold bind. by rewrite H. Qed.

Lemma bind_raise_eq {A B} (m : M A) (k : A -> M B) st e st' :
  m st = (Raise e, st') -> bind m k st = (Raise e, st').
Proof. intros H. unfold bind. by rewrite H. Qed.

Lemma read_attr_field h tr self name v :
  field_attr h self name = Some v ->
  read_attr self name (State h tr) = (Ret v, State h tr).
Proof.
  unfold field_attr, read_attr. simpl.
  destruct (h !! self) as [[]|]; try done. by intros ->.
Qed.

Lemma read_attr_state self name st r st' :
  read_attr self name st = (r, st') -> st' = st.
Proof.
  unfold read_attr. intros H.
  destruct (heap st !! self) as [[| |c attrs| |]|]; try (by inversion H).
  destruct (attrs !! name); by inversion H.
Qed.

Lemma read_attr_Ret self name st v st' :
  read_attr self name st = (Ret v, st') -> field_attr (heap st) self name = Some v.
Proof.
  unfold read_attr, field_attr. intros H.
  destruct (heap st !! self) as [[| |c attrs| |]|]; try (by inversion H).
  destruct (attrs !! name); by inversion H.
Qed.

Lemma write_attr_inst self name v h tr c attrs :
  h !! self = Some (OInst c attrs) ->
  write_attr self name v (State h tr)
  = (Ret tt, State (<[self := OInst c (<[name := v]> attrs)]> h) tr).
Proof. intros H. unfold write_attr. simpl. by rewrite H. Qed.



Lemma extcall_eq {A} ev (f : heap_t -> outcome A * heap_t) st r h :
  f (heap st) = (r, h) -> extcall ev f st = (r, State h (trace st ++ [ev])).
Proof. intros H. unfold extcall. by rewrite H. Qed.

(** The engine call inside the [try] block, once the schema is resolved. *)
Lemma engine_call_eq W self value inst st schema st1 cls r h2 :
  get_schema W self inst st = (Ret schema, st1) ->
  field_attr (heap st1) self "format_checker" = Some cls ->
  w_validate W value schema cls (heap st1) = (r, h2) ->
  validate_against_schema W self value inst st
  = (match r with
     | Raise (jsonschema_ValidationError message) =>
         Raise (ValidationError message "invalid_data")
     | Raise (jsonschema_SchemaError message) =>
         Raise (ValidationError message "invalid_schema_definition")
     | _ => r
     end,
     State h2 (trace st1 ++ [EvEngineValidate value schema cls])).
Proof.
  intros Hs Hfc Hv. unfold validate_against_schema.
  rewrite (bind_ret_eq _ _ _ _ _ Hs). unfold try_except.
  destruct st1 as [h1 tr1]. simpl in *.
  rewrite (bind_ret_eq _ _ _ _ _ (read_attr_field _ _ _ _ _ Hfc)).
  cbv beta. rewrite (extcall_eq _ _ (State h1 tr1) _ _ Hv). simpl.
  destruct r as [[]|[]]; reflexivity.
Qed.

(** C1 (amended). Once the schema is resolved, a data-does-not-conform
    report of the engine becomes the host validation error with code
    [invalid_data] and the engine's message; a malformed-schema report
    becomes the host validation error with code
    [invalid_schema_definition] and the engine's message; when the engine
    call returns without raising, the call returns [None]. *)
Theorem validate_against_schema_maps_engine_reports
    W self value inst st schema st1 cls h2 :
  get_schema W self inst st = (Ret schema, st1) ->
  field_attr (heap st1) self "format_checker" = Some cls ->
  let st2 := State h2 (trace st1 ++ [EvEngineValidate value schema cls]) in
  (forall message,
      w_validate W value schema cls (heap st1) = (Raise (jsonschema_ValidationError message), h2) ->
      validate_against_schema W self value inst st
      = (Raise (ValidationError message "invalid_data"), st2)) /\
  (forall message,
      w_validate W value schema cls (heap st1) = (Raise (jsonschema_SchemaError message), h2) ->
      validate_against_schema W self value inst st
      = (Raise (ValidationError message "invalid_schema_definition"), st2)) /\
  (w_validate W value schema cls (heap st1) = (Ret tt, h2) ->
   validate_against_schema W self value inst st = (Ret tt, st2)).
Proof.
  intros Hs Hfc st2. repeat split; intros;
    by rewrite (engine_call_eq _ _ _ _ _ _ _ _ _ _ Hs Hfc ltac:(eassumption)).
Qed.

(** C4 (amended). Of the exceptions the engine raises during the
    [jsonschema.validate] call, exactly the data-invalid and schema-invalid
    kinds are caught and re-raised as the host validation error with the
    mapped code and the original message; an exception of any other class
    leaves [validate_against_schema] as it was raised. *)
Theorem validate_against_schema_engine_exceptions
    W self value inst st schema st1 cls e h2 :
  get_schema W self inst st = (Ret schema, st1) ->
  field_attr (heap st1) self "format_checker" = Some cls ->
  w_validate W value schema cls (heap st1) = (Raise e, h2) ->
  validate_against_schema W self value inst st
  = (Raise (match e with
            | jsonschema_ValidationError message => ValidationError message "invalid_data"
            | jsonschema_SchemaError message => ValidationError message "invalid_schema_definition"
            | _ => e
            end),
     State h2 (trace st1 ++ [EvEngineValidate value schema cls])).
Proof.
  intros Hs Hfc Hv. rewrite (engine_call_eq _ _ _ _ _ _ _ _ _ _ Hs Hfc Hv).
  by destruct e.
Qed.

(** C10. [validate] runs the base column validation first.  When that
    raises, the exception is the result and the base call is the only call
    made: the schema is not resolved and the engine is not run.  When it
    returns, [validate] continues as [validate_against_schema]. *)
Theorem validate_runs_base_validation_first W self value inst st h1 :
  let st1 := State h1 (trace st ++ [EvSuperValidate self value inst]) in
  (forall e,
      w_super_validate W self value inst (heap st) = (Raise e, h1) ->
      validate W self value inst st = (Raise e, st1)) /\
  (w_super_validate W self value inst (heap st) = (Ret tt, h1) ->
   validate W self value inst st = validate_against_schema W self value inst st1).
Proof.
  intros st1. split.
  - intros e H. unfold validate.
    by rewrite (bind_raise_eq _ _ _ _ _ (extcall_eq _ _ _ _ _ H)).
  - intros H. unfold validate.
    by rewrite (bind_ret_eq _ _ _ _ _ (extcall_eq _ _ _ _ _ H)).
Qed.

(** ** Inversion of monadic steps *)

Lemma bind_Ret_inv {A B} (m : M A) (k : A -> M B) st b st' :
  bind m k st = (Ret b, st') ->
  exists a st1, m st = (Ret a, st1) /\ k a st1 = (Ret b, st').
Proof.
  unfold bind. destruct (m st) as [[a|e] st1]; [eauto|discriminate].
Qed.


Lemma extcall_inv {A} ev (f : heap_t -> outcome A * heap_t) st r st' :
  extcall ev f st = (r, st') ->
  exists h, f (heap st) = (r, h) /\ st' = State h (trace st ++ [ev]).
Proof.
  unfold extcall. destruct (f (heap st)) as [r' h]. intros [= <- <-]. eauto.
Qed.

Lemma write_attr_inv self name v st st' :
  write_attr self name v st = (Ret tt, st') ->
  exists c attrs,
    heap st !! self = Some (OInst c attrs) /\
    st' = State (<[self := OInst c (<[name := v]> attrs)]> (heap st)) (trace st).
Proof.
  unfold write_attr.
  destruct (heap st !! self) as [[| |c attrs| |]|]; try discriminate.
  intros [= <-]. eauto.
Qed.

Lemma read_attr_inv self name st v st' :
  read_attr self name st = (Ret v, st') ->
  st' = st /\ field_attr (heap st) self name = Some v.
Proof.
  intros H. split; [eapply read_attr_state, H | eapply read_attr_Ret, H].
Qed.

Lemma alloc_eq o st :
  alloc o st = (Ret (fresh_loc (heap st)),
                State (<[fresh_loc (heap st) := o]> (heap st)) (trace st)).
Proof. reflexivity. Qed.

Lemma fresh_loc_ne (h : heap_t) l o : h !! l = Some o -> l <> fresh_loc h.
Proof. intros H ->. by rewrite fresh_loc_None in H. Qed.

(** ** Construction *)

(** [FieldReference(source=s)] always returns, and what it returns is a
    path reference for the segments of [s]. *)
Lemma FieldReference_new_spec s st :
  exists v st',
    FieldReference_new s st = (Ret v, st') /\
    trace st' = trace st /\
    path_reference (heap st') v (split "." s) /\
    (forall l o, heap st !! l = Some o -> heap st' !! l = Some o).
Proof.
  destruct st as [h tr]. unfold FieldReference_new, FieldReference_init.
  set (lr := fresh_loc h).
  set (h1 := <[lr := OInst "FieldReference" ∅]> h).
  set (ll := fresh_loc h1).
  set (h2 := <[ll := OList (VStr <$> split "." s)]> h1).
  assert (Hlr : h1 !! lr = Some (OInst "FieldReference" ∅))
    by (subst h1; apply lookup_insert_eq).
  assert (Hne : lr <> ll) by (eapply fresh_loc_ne, Hlr).
  assert (Hlr2 : h2 !! lr = Some (OInst "FieldReference" ∅))
    by (subst h2; by rewrite lookup_insert_ne).
  exists (VRef lr),
    (State (<[lr := OInst "FieldReference" (<["source" := VRef ll]> ∅)]> h2) tr).
  split; [|split; [done|split]].
  - unfold bind at 1. rewrite alloc_eq. simpl. fold lr h1.
    unfold bind at 1. unfold bind at 1. rewrite alloc_eq. simpl. fold ll h2.
    by rewrite (write_attr_inst _ _ _ _ _ _ _ Hlr2).
  - exists lr, ll, (<["source" := VRef ll]> ∅). simpl.
    split; [done|]. split; [apply lookup_insert_eq|].
    split; [apply lookup_insert_eq|].
    rewrite lookup_insert_ne by done. subst h2. apply lookup_insert_eq.
  - simpl. intros l o Hl.
    assert (l <> lr) by (eapply fresh_loc_ne, Hl).
    assert (h1 !! l = Some o) by (subst h1; by rewrite lookup_insert_ne).
    assert (l <> ll) by (by eapply fresh_loc_ne).
    rewrite lookup_insert_ne by done. subst h2. by rewrite lookup_insert_ne.
Qed.

(** The first two steps of [__init__]: the base initialiser, then
    [self._schema_kwarg = schema]. *)
Lemma init_head {A} W self (schema : pyval) args kwargs (k : M A) st0 r st :
  (extcall (EvSuperInit self args kwargs) (w_super_init W self args kwargs) ;;;
   write_attr self "_schema_kwarg" schema ;;; k) st0 = (Ret r, st) ->
  exists h1 c attrs,
    w_super_init W self args kwargs (heap st0) = (Ret tt, h1) /\
    h1 !! self = Some (OInst c attrs) /\
    k (State (<[self := OInst c (<["_schema_kwarg" := schema]> attrs)]> h1)
             (trace st0 ++ [EvSuperInit self args kwargs])) = (Ret r, st).
Proof.
  intros H.
  apply bind_Ret_inv in H as ([] & st1 & H1 & H).
  apply extcall_inv in H1 as (h1 & H1 & ->).
  apply bind_Ret_inv in H as ([] & st2 & H2 & H).
  apply write_attr_inv in H2 as (c & attrs & Hself & ->). simpl in *.
  eauto 10.
Qed.

(** The last two steps of [__init__]: [self.format_checker = ...], then
    [self._schema = ...]. *)
Lemma init_tail self fc schema' st3 st :
  (write_attr self "format_checker" fc ;;; write_attr self "_schema" schema') st3
  = (Ret tt, st) ->
  exists c attrs,
    heap st3 !! self = Some (OInst c attrs) /\
    trace st = trace st3 /\
    heap st !! self
    = Some (OInst c (<["_schema" := schema']> (<["format_checker" := fc]> attrs))) /\
    (forall l, l <> self -> heap st !! l = heap st3 !! l).
Proof.
  intros H.
  apply bind_Ret_inv in H as ([] & st4 & H4 & H).
  apply write_attr_inv in H4 as (c & attrs & Hself & ->).
  apply write_attr_inv in H as (c' & attrs' & Hself' & ->). simpl in *.
  rewrite lookup_insert_eq in Hself'. injection Hself' as <- <-.
  exists c, attrs. split; [done|]. split; [done|].
  split; [apply lookup_insert_eq|].
  intros l Hl. by rewrite !lookup_insert_ne.
Qed.

(** A field constructed from [None]: the stored schema is a new empty
    mapping. *)
Lemma init_None_inv W self fc args kwargs st0 st :
  JSONSchemaField_init W self VNone fc args kwargs st0 = (Ret tt, st) ->
  exists d,
    field_attr (heap st) self "_schema" = Some (VRef d) /\
    heap st !! d = Some (ODict ∅) /\
    field_attr (heap st) self "_schema_kwarg" = Some VNone /\
    field_attr (heap st) self "format_checker" = Some fc /\
    trace st = (trace st0 ++ [EvSuperInit self args kwargs])%list.
Proof.
  intros H. apply init_head in H as (h1 & c & attrs & _ & Hself & H).
  apply bind_Ret_inv in H as (schema' & st3 & H3 & H).
  unfold bind in H3. rewrite alloc_eq in H3. simpl in H3.
  injection H3 as <- <-.
  apply init_tail in H as (c' & attrs' & Hself' & Htr & Hfin & Hother).
  simpl in *.
  set (h2 := <[self := OInst c (<["_schema_kwarg" := VNone]> attrs)]> h1) in *.
  assert (Hs2 : h2 !! self = Some (OInst c (<["_schema_kwarg" := VNone]> attrs)))
    by (subst h2; apply lookup_insert_eq).
  assert (Hne : self <> fresh_loc h2) by (eapply fresh_loc_ne, Hs2).
  rewrite lookup_insert_ne in Hself' by done. rewrite Hs2 in Hself'.
  injection Hself' as <- <-.
  exists (fresh_loc h2). unfold field_attr. rewrite Hfin.
  split; [apply lookup_insert_eq|].
  split; [rewrite Hother by done; apply lookup_insert_eq|].
  split; [by attr_lookup|].
  split; [by attr_lookup|done].
Qed.

(** A field constructed from a spec that is neither [None] nor a string:
    the stored schema is the spec itself. *)
Lemma init_other_inv W self schema fc args kwargs st0 st :
  schema <> VNone -> (forall s, schema <> VStr s) ->
  JSONSchemaField_init W self schema fc args kwargs st0 = (Ret tt, st) ->
  exists h1,
    w_super_init W self args kwargs (heap st0) = (Ret tt, h1) /\
    field_attr (heap st) self "_schema" = Some schema /\
    field_attr (heap st) self "_schema_kwarg" = Some schema /\
    field_attr (heap st) self "format_checker" = Some fc /\
    trace st = (trace st0 ++ [EvSuperInit self args kwargs])%list /\
    (forall l, l <> self -> heap st !! l = h1 !! l).
Proof.
  intros Hn Hs H. apply init_head in H as (h1 & c & attrs & Hsup & Hself & H).
  apply bind_Ret_inv in H as (schema' & st3 & H3 & H).
  assert (schema' = schema /\
          st3 = State (<[self := OInst c (<["_schema_kwarg" := schema]> attrs)]> h1)
                      (trace st0 ++ [EvSuperInit self args kwargs])) as [-> ->].
  { destruct schema as [|b|z|s|l];
      [by destruct Hn| | |by destruct (Hs s)|];
      unfold ret in H3; by injection H3 as <- <-. }
  apply init_tail in H as (c' & attrs' & Hself' & Htr & Hfin & Hother).
  simpl in *. rewrite lookup_insert_eq in Hself'. injection Hself' as <- <-.
  exists h1. split; [done|]. unfold field_attr. rewrite Hfin.
  split; [apply lookup_insert_eq|].
  split; [by attr_lookup|].
  split; [by attr_lookup|].
  split; [done|].
  intros l Hl. rewrite Hother by done. by rewrite lookup_insert_ne.
Qed.

Lemma path_reference_after_writes h h' self c attrs attrs' v segs :
  path_reference h v segs ->
  h !! self = Some (OInst c attrs) ->
  h' !! self = Some (OInst c attrs') ->
  (attrs !! "source" = attrs' !! "source") ->
  (forall l, l <> self -> h' !! l = h !! l) ->
  path_reference h' v segs.
Proof.
  intros (l & ls & attrsR & -> & Hl & Hsrc & Hls) Hself Hself' Hsame Hother.
  assert (ls <> self) by (intros ->; congruence).
  destruct (decide (l = self)) as [->|Hne].
  - rewrite Hself in Hl. injection Hl as -> ->.
    exists self, ls, attrs'. rewrite (Hother ls) by done.
    repeat split; try done. by rewrite <- Hsame.
  - exists l, ls, attrsR. rewrite (Hother l), (Hother ls) by done. by repeat split.
Qed.

(** A field constructed from a string [s]: [json.loads] is called once,
    on [s], with the encoder as [cls] when there is one; the stored schema
    is what the call returned, or a path reference for the whole of [s]
    when the call raised [JSONDecodeError]. *)
Lemma init_str_inv W self s fc args kwargs st0 st :
  JSONSchemaField_init W self (VStr s) fc args kwargs st0 = (Ret tt, st) ->
  exists h1 c attrs encoder schema',
    w_super_init W self args kwargs (heap st0) = (Ret tt, h1) /\
    h1 !! self = Some (OInst c attrs) /\
    attrs !! "encoder" = Some encoder /\
    let h2 := <[self := OInst c (<["_schema_kwarg" := VStr s]> attrs)]> h1 in
    let options := if truthy h2 encoder then [("cls", encoder)] else [] in
    trace st = (trace st0 ++ [EvSuperInit self args kwargs; EvJsonLoads s options])%list /\
    field_attr (heap st) self "_schema" = Some schema' /\
    field_attr (heap st) self "format_checker" = Some fc /\
    ((exists h3, w_json_loads W s options h2 = (Ret schema', h3)) \/
     (exists msg h3,
         w_json_loads W s options h2 = (Raise (JSONDecodeError msg), h3) /\
         path_reference (heap st) schema' (split "." s))) /\
    (keeps self (w_json_loads W s options) ->
     field_attr (heap st) self "_schema_kwarg" = Some (VStr s)).
Proof.
  intros H. apply init_head in H as (h1 & c & attrs & Hsup & Hself & H).
  set (h2 := <[self := OInst c (<["_schema_kwarg" := VStr s]> attrs)]> h1) in *.
  set (tr2 := (trace st0 ++ [EvSuperInit self args kwargs])%list) in *.
  assert (Hs2 : h2 !! self = Some (OInst c (<["_schema_kwarg" := VStr s]> attrs)))
    by (subst h2; apply lookup_insert_eq).
  apply bind_Ret_inv in H as (schema' & st3 & H3 & H).
  apply bind_Ret_inv in H3 as (encoder & st2 & Henc & H3).
  apply read_attr_inv in Henc as [-> Henc]. simpl in Henc.
  unfold field_attr in Henc. rewrite Hs2 in Henc.
  rewrite lookup_insert_ne in Henc by done.
  apply bind_Ret_inv in H3 as (h & st2 & Hh & H3).
  unfold get_heap in Hh. injection Hh as <- <-. simpl in H3.
  apply bind_Ret_inv in H3 as (options & st2 & Hopt & H3).
  assert (options = (if truthy h2 encoder then [("cls", encoder)] else [])
          /\ st2 = State h2 tr2) as [Eopt ->].
  { destruct (truthy h2 encoder).
    - apply bind_Ret_inv in Hopt as (e' & st2' & He' & Hopt).
      apply read_attr_inv in He' as [-> He']. simpl in He'.
      unfold field_attr in He'. rewrite Hs2 in He'.
      rewrite lookup_insert_ne in He' by done.
      unfold ret in Hopt. injection Hopt as <- <-. split; congruence.
    - unfold ret in Hopt. by injection Hopt as <- <-. }
  unfold try_except in H3.
  destruct (extcall (EvJsonLoads s options) (w_json_loads W s options) (State h2 tr2))
    as [r st_l] eqn:Hcall.
  apply extcall_inv in Hcall as (h3 & Hloads & ->). cbn [heap trace] in *.
  apply init_tail in H as (c' & attrs' & Hself' & Htr & Hfin & Hother).
  exists h1, c, attrs, encoder, schema'.
  split; [done|]. split; [done|]. split; [done|].
  cbv zeta. fold h2. rewrite <- Eopt.
  assert (Hattrs : field_attr (heap st) self "_schema" = Some schema' /\
                   field_attr (heap st) self "format_checker" = Some fc).
  { unfold field_attr. rewrite Hfin. split; by attr_lookup. }
  destruct Hattrs as [Hschema Hfc].
  destruct r as [v|e].
  - injection H3 as <- <-. simpl in *.
    split; [by rewrite Htr; subst tr2; rewrite <- app_assoc|].
    split; [done|]. split; [done|]. split; [eauto|].
    intros Hkeep. apply Hkeep in Hs2. rewrite Hloads in Hs2. simpl in Hs2.
    rewrite Hs2 in Hself'. injection Hself' as <- <-.
    unfold field_attr. rewrite Hfin. by attr_lookup.
  - destruct e as [msg| | | | | |]; try discriminate.
    destruct (FieldReference_new_spec s (State h3 (tr2 ++ [EvJsonLoads s options])))
      as (v & st' & Hnew & Htr' & Href & Hmono).
    rewrite Hnew in H3. injection H3 as <- <-. simpl in *.
    split; [by rewrite Htr, Htr'; subst tr2; rewrite <- app_assoc|].
    split; [done|]. split; [done|]. split.
    + right. exists msg, h3. split; [done|].
      eapply path_reference_after_writes; [exact Href|exact Hself'|exact Hfin| |exact Hother].
      by attr_lookup.
    + intros Hkeep. apply Hkeep in Hs2. rewrite Hloads in Hs2. simpl in Hs2.
      apply Hmono in Hs2. rewrite Hs2 in Hself'. injection Hself' as <- <-.
      unfold field_attr. rewrite Hfin. by attr_lookup.
Qed.

(** ** Resolution *)

Lemma get_schema_not_callable W self inst st v :
  field_attr (heap st) self "_schema" = Some v ->
  callable (w_class_callable W) (heap st) v = false ->
  get_schema W self inst st = (Ret v, st).
Proof.
  intros Hv Hc. destruct st as [h tr]. unfold get_schema.
  rewrite (bind_ret_eq _ _ _ _ _ (read_attr_field _ _ _ _ _ Hv)).
  unfold bind, get_heap. simpl in *. by rewrite Hc.
Qed.

Lemma get_schema_computed W self inst st f :
  field_attr (heap st) self "_schema" = Some f ->
  callable (w_class_callable W) (heap st) f = true ->
  is_FieldReference (heap st) f = None ->
  get_schema W self inst st = extcall (EvCall f inst) (w_call W f inst) st.
Proof.
  intros Hv Hc Hf. destruct st as [h tr]. unfold get_schema.
  rewrite (bind_ret_eq _ _ _ _ _ (read_attr_field _ _ _ _ _ Hv)).
  unfold bind at 1. unfold get_heap. simpl in *. rewrite Hc.
  unfold call, bind, get_heap. simpl. by rewrite Hf.
Qed.

Lemma get_schema_path W self inst st ref segs :
  field_attr (heap st) self "_schema" = Some ref ->
  path_reference (heap st) ref segs ->
  get_schema W self inst st = walk W (VStr <$> segs) inst st.
Proof.
  intros Hv (l & ls & attrs & -> & Hl & Hsrc & Hls).
  destruct st as [h tr]. unfold get_schema. simpl in *.
  rewrite (bind_ret_eq _ _ _ _ _ (read_attr_field _ _ _ _ _ Hv)).
  unfold bind at 1. unfold get_heap. simpl. rewrite Hl. simpl.
  unfold call, bind at 1, get_heap. simpl. rewrite Hl. simpl.
  unfold FieldReference_call.
  assert (Hs : field_attr h l "source" = Some (VRef ls))
    by (unfold field_attr; by rewrite Hl).
  rewrite (bind_ret_eq _ _ _ _ _ (read_attr_field _ _ _ _ _ Hs)).
  unfold bind at 1, iter. simpl. by rewrite Hls.
Qed.

Lemma walk_chain W segs o h evs v h' tr :
  attr_chain W segs o h evs v h' ->
  walk W (VStr <$> segs) o (State h tr) = (Ret v, State h' (tr ++ evs)).
Proof.
  intros H. revert tr. induction H as [o h|a segs o h o1 h1 evs o' h' Hget _ IH]; intros tr.
  - simpl. by rewrite app_nil_r.
  - simpl. unfold getattr.
    rewrite (bind_ret_eq _ _ _ _ _ (extcall_eq _ _ (State h tr) _ _ Hget)).
    rewrite IH. by rewrite <- app_assoc.
Qed.

Lemma walk_chain_raise W segs1 a segs2 o h evs o1 h1 e h2 tr :
  attr_chain W segs1 o h evs o1 h1 ->
  w_getattr W o1 a h1 = (Raise e, h2) ->
  walk W (VStr <$> (segs1 ++ a :: segs2)) o (State h tr)
  = (Raise e, State h2 (tr ++ evs ++ [EvGetattr o1 a])).
Proof.
  intros H Hfail. revert tr.
  induction H as [o h|b segs o h o1 h1 evs o' h' Hget _ IH]; intros tr.
  - simpl. unfold getattr.
    by rewrite (bind_raise_eq _ _ _ _ _ (extcall_eq _ _ (State h tr) _ _ Hfail)).
  - simpl. unfold getattr.
    rewrite (bind_ret_eq _ _ _ _ _ (extcall_eq _ _ (State h tr) _ _ Hget)).
    rewrite (IH Hfail). by rewrite <- app_assoc.
Qed.

(** ** Invariants of the validation-time methods

    A relation between states that every call to the host, the engine and
    the base validation respects is respected by [get_schema],
    [validate_against_schema] and [validate]: these methods change the
    state through such calls only. *)
Section Invariant.
Variable W : World.
Variable R : state -> state -> Prop.
Hypothesis R_refl : forall st, R st st.
Hypothesis R_trans : forall a b c, R a b -> R b c -> R a c.
Hypothesis R_getattr :
  forall o a, step_invariant R (extcall (EvGetattr o a) (w_getattr W o a)).
Hypothesis R_call :
  forall f x, step_invariant R (extcall (EvCall f x) (w_call W f x)).
Hypothesis R_validate :
  forall v s c, step_invariant R (extcall (EvEngineValidate v s c) (w_validate W v s c)).
Hypothesis R_super_validate :
  forall self v i,
    step_invariant R (extcall (EvSuperValidate self v i) (w_super_validate W self v i)).

Lemma inv_ret {A} (a : A) : step_invariant R (ret a).
Proof. intros st. apply R_refl. Qed.

Lemma inv_raise {A} e : step_invariant R (@raise A e).
Proof. intros st. apply R_refl. Qed.

Lemma inv_bind {A B} (m : M A) (k : A -> M B) :
  step_invariant R m -> (forall a, step_invariant R (k a)) ->
  step_invariant R (bind m k).
Proof.
  intros Hm Hk st. unfold bind. specialize (Hm st).
  destruct (m st) as [[a|e] st1]; simpl in *; [|done].
  eapply R_trans; [exact Hm|apply Hk].
Qed.

Lemma inv_try {A} (m : M A) (h : exn -> option (M A)) :
  step_invariant R m -> (forall e k, h e = Some k -> step_invariant R k) ->
  step_invariant R (try_except m h).
Proof.
  intros Hm Hh st. unfold try_except. specialize (Hm st).
  destruct (m st) as [[a|e] st1]; simpl in *; [done|].
  destruct (h e) as [k|] eqn:He; [|done].
  eapply R_trans; [exact Hm|eapply Hh, He].
Qed.

Lemma inv_read_attr self name : step_invariant R (read_attr self name).
Proof.
  intros st. destruct (read_attr self name st) as [r st'] eqn:H.
  apply read_attr_state in H as ->. apply R_refl.
Qed.

Lemma inv_get_heap : step_invariant R get_heap.
Proof. intros st. apply R_refl. Qed.

Lemma inv_iter v : step_invariant R (iter v).
Proof.
  intros st. unfold iter. destruct v; try apply R_refl.
  destruct (heap st !! l) as [[]|]; apply R_refl.
Qed.

Lemma inv_walk attrs o : step_invariant R (walk W attrs o).
Proof.
  revert o. induction attrs as [|attr rest IH]; intros o; [apply inv_ret|].
  simpl. apply inv_bind; [|done].
  unfold getattr. destruct attr; try apply inv_raise. apply R_getattr.
Qed.

Lemma inv_call f x : step_invariant R (call W f x).
Proof.
  unfold call. apply inv_bind; [apply inv_get_heap|]. intros h.
  destruct (is_FieldReference h f); [|apply R_call].
  unfold FieldReference_call.
  apply inv_bind; [apply inv_read_attr|]. intros source.
  apply inv_bind; [apply inv_iter|]. intros attrs. apply inv_walk.
Qed.

Lemma inv_get_schema self inst : step_invariant R (get_schema W self inst).
Proof.
  unfold get_schema. apply inv_bind; [apply inv_read_attr|]. intros schema.
  apply inv_bind; [apply inv_get_heap|]. intros h.
  destruct (callable _ h schema); [apply inv_call|apply inv_ret].
Qed.

Lemma inv_validate_against_schema self value inst :
  step_invariant R (validate_against_schema W self value inst).
Proof.
  unfold validate_against_schema.
  apply inv_bind; [apply inv_get_schema|]. intros schema.
  apply inv_try.
  - apply inv_bind; [apply inv_read_attr|]. intros cls. apply R_validate.
  - intros e k He. destruct e; try discriminate; injection He as <-; apply inv_raise.
Qed.

Lemma inv_validate self value inst : step_invariant R (validate W self value inst).
Proof.
  unfold validate. apply inv_bind; [apply R_super_validate|].
  intros _. apply inv_validate_against_schema.
Qed.

End Invariant.

(** ** Invariants instantiated *)

Lemma no_json_loads_extcall {A} ev (f : heap_t -> outcome A * heap_t) :
  is_json_loads ev = false -> step_invariant no_json_loads (extcall ev f).
Proof.
  intros Hev st. unfold no_json_loads, extcall.
  destruct (f (heap st)) as [r h]. simpl.
  rewrite List.filter_app. simpl. rewrite Hev. apply app_nil_r.
Qed.

Lemma same_object_extcall {A} l ev (f : heap_t -> outcome A * heap_t) :
  keeps l f -> step_invariant (same_object l) (extcall ev f).
Proof.
  intros Hk st o Ho. unfold extcall. specialize (Hk _ _ Ho).
  by destruct (f (heap st)) as [r h].
Qed.

Lemma same_object_instance l st st' : same_object l st st' -> same_instance l st st'.
Proof. intros H c attrs. apply H. Qed.

Lemma same_instance_set_item l d key v : step_invariant (same_instance l) (set_item d key v).
Proof.
  intros st c attrs Hl. unfold set_item.
  destruct d as [| | | |ld]; try done.
  destruct (heap st !! ld) as [[items| | | |]|] eqn:Hd; try done. simpl.
  rewrite lookup_insert_ne; [done|]. intros ->. congruence.
Qed.

(** ** The claims *)

(** C2 (amended). Constructing a field from a string [s] calls
    [json.loads] exactly once, on the whole of [s].  The stored schema is
    the value that call returned, of whatever JSON type, or, when the call
    raised [JSONDecodeError], a path reference for the segments of the
    whole of [s].  Resolution and validation never call [json.loads]. *)
Theorem string_spec_parsed_once_at_construction W self s fc args kwargs st0 st :
  JSONSchemaField_init W self (VStr s) fc args kwargs st0 = (Ret tt, st) ->
  (exists options schema' h2,
      trace st = trace st0 ++ [EvSuperInit self args kwargs; EvJsonLoads s options] /\
      field_attr (heap st) self "_schema" = Some schema' /\
      ((exists h3, w_json_loads W s options h2 = (Ret schema', h3)) \/
       (exists msg h3,
           w_json_loads W s options h2 = (Raise (JSONDecodeError msg), h3) /\
           path_reference (heap st) schema' (split "." s)))) /\
  (forall value inst st1,
      no_json_loads st1 (get_schema W self inst st1).2 /\
      no_json_loads st1 (validate_against_schema W self value inst st1).2 /\
      no_json_loads st1 (validate W self value inst st1).2).
Proof.
  intros H. split.
  - apply init_str_inv in H
      as (h1 & c & attrs & encoder & schema' & _ & _ & _ & Htr & Hs & _ & Hcase & _).
    eauto 10.
  - assert (Hrefl : forall st1, no_json_loads st1 st1) by done.
    assert (Htrans : forall a b c, no_json_loads a b -> no_json_loads b c -> no_json_loads a c)
      by (unfold no_json_loads; congruence).
    intros value inst st1. repeat split.
    + apply inv_get_schema; try done; intros; by apply no_json_loads_extcall.
    + apply inv_validate_against_schema; try done; intros; by apply no_json_loads_extcall.
    + apply inv_validate; try done; intros; by apply no_json_loads_extcall.
Qed.

(** Resolving a stored path reference: the attribute reads along its
    segments, in order. *)
Lemma path_reference_resolution W self segs inst st ref evs v h' :
  field_attr (heap st) self "_schema" = Some ref ->
  path_reference (heap st) ref segs ->
  attr_chain W segs inst (heap st) evs v h' ->
  get_schema W self inst st = (Ret v, State h' (trace st ++ evs)).
Proof.
  intros Hs Href Hchain. rewrite (get_schema_path _ _ _ _ _ _ Hs Href).
  destruct st as [h tr]. by apply walk_chain.
Qed.

(** C3. For a field constructed from a string [s] that is not JSON text,
    resolution reads the segments of [s.split('.')] one after the other,
    the first from the instance and each next one from the value just
    read, and returns the last value read; for [s = "a.b"] and an instance
    whose [a.b] is 5 it returns 5. *)
Theorem dotted_path_resolution W self s fc args kwargs st0 st inst :
  JSONSchemaField_init W self (VStr s) fc args kwargs st0 = (Ret tt, st) ->
  (forall options h v h', w_json_loads W s options h <> (Ret v, h')) ->
  (forall evs v h',
      attr_chain W (split "." s) inst (heap st) evs v h' ->
      get_schema W self inst st = (Ret v, State h' (trace st ++ evs))) /\
  (s = "a.b" ->
   forall x h1 h2,
     w_getattr W inst "a" (heap st) = (Ret x, h1) ->
     w_getattr W x "b" h1 = (Ret (VInt 5), h2) ->
     get_schema W self inst st
     = (Ret (VInt 5), State h2 (trace st ++ [EvGetattr inst "a"; EvGetattr x "b"]))).
Proof.
  intros Hinit Hnot.
  apply init_str_inv in Hinit
    as (h1 & c & attrs & encoder & ref & _ & _ & _ & _ & Hs & _ & Hcase & _).
  destruct Hcase as [[h3 Hret]|(msg & h3 & _ & Href)]; [by destruct (Hnot _ _ _ _ Hret)|].
  assert (Hgen : forall evs v h',
             attr_chain W (split "." s) inst (heap st) evs v h' ->
             get_schema W self inst st = (Ret v, State h' (trace st ++ evs)))
    by (intros evs v h' Hchain; by eapply path_reference_resolution).
  split; [exact Hgen|].
  intros -> x h1' h2 Ha Hb. apply Hgen.
  change (split "." "a.b") with ["a"; "b"].
  eapply chain_cons; [exact Ha|]. eapply chain_cons; [exact Hb|]. constructor.
Qed.

(** C6. After a field is constructed from any spec and format checker,
    [deconstruct] returns the keyword arguments of the base class with
    [schema] set to the spec as it was passed and [format_checker] set to
    the format checker as it was passed. *)
Theorem deconstruct_returns_original_spec
    W self schema fc args kwargs st0 st name path a lk h1 items :
  JSONSchemaField_init W self schema fc args kwargs st0 = (Ret tt, st) ->
  (forall s options, keeps self (w_json_loads W s options)) ->
  keeps self (w_super_deconstruct W self) ->
  w_super_deconstruct W self (heap st) = (Ret (name, path, a, VRef lk), h1) ->
  h1 !! lk = Some (ODict items) ->
  exists st' items',
    deconstruct W self st = (Ret (name, path, a, VRef lk), st') /\
    heap st' !! lk = Some (ODict items') /\
    items' = <["format_checker" := fc]> (<["schema" := schema]> items) /\
    items' !! "schema" = Some schema /\
    items' !! "format_checker" = Some fc.
Proof.
  intros Hinit Hloads Hkeep Hsup Hlk.
  assert (Hattrs : field_attr (heap st) self "_schema_kwarg" = Some schema /\
                   field_attr (heap st) self "format_checker" = Some fc).
  { destruct schema as [|b|z|s|l].
    - apply init_None_inv in Hinit as (d & _ & _ & ? & ? & _). done.
    - apply init_other_inv in Hinit as (? & _ & _ & ? & ? & _); done.
    - apply init_other_inv in Hinit as (? & _ & _ & ? & ? & _); done.
    - apply init_str_inv in Hinit as (? & ? & ? & ? & ? & _ & _ & _ & _ & _ & ? & _ & Hk).
      split; [apply Hk, Hloads|done].
    - apply init_other_inv in Hinit as (? & _ & _ & ? & ? & _); done. }
  destruct Hattrs as [Hkw Hfc].
  assert (Hself : forall name' v, field_attr (heap st) self name' = Some v ->
                                  field_attr h1 self name' = Some v).
  { intros name' v. unfold field_attr.
    destruct (heap st !! self) as [o|] eqn:Ho; [|done].
    apply Hkeep in Ho. rewrite Hsup in Ho. simpl in Ho. by rewrite Ho. }
  assert (Hne : lk <> self).
  { intros ->. apply Hself in Hkw. unfold field_attr in Hkw. by rewrite Hlk in Hkw. }
  set (tr1 := trace st ++ [EvSuperDeconstruct self]).
  set (h2 := <[lk := ODict (<["schema" := schema]> items)]> h1).
  set (items' := <["format_checker" := fc]> (<["schema" := schema]> items)).
  exists (State (<[lk := ODict items']> h2) tr1), items'.
  split; [|split; [apply lookup_insert_eq|split; [done|]]].
  - unfold deconstruct.
    rewrite (bind_ret_eq _ _ _ _ _ (extcall_eq _ _ _ _ _ Hsup)). fold tr1.
    rewrite (bind_ret_eq _ _ _ _ _ (read_attr_field _ tr1 _ _ _ (Hself _ _ Hkw))).
    assert (Hset1 : set_item (VRef lk) "schema" schema (State h1 tr1) = (Ret tt, State h2 tr1))
      by (unfold set_item; simpl; by rewrite Hlk).
    rewrite (bind_ret_eq _ _ _ _ _ Hset1).
    assert (Hfc2 : field_attr h2 self "format_checker" = Some fc).
    { unfold field_attr, h2. rewrite lookup_insert_ne by done. by apply Hself. }
    rewrite (bind_ret_eq _ _ _ _ _ (read_attr_field _ tr1 _ _ _ Hfc2)).
    assert (Hset2 : set_item (VRef lk) "format_checker" fc (State h2 tr1)
                    = (Ret tt, State (<[lk := ODict items']> h2) tr1)).
    { unfold set_item, h2. simpl. by rewrite lookup_insert_eq. }
    by rewrite (bind_ret_eq _ _ _ _ _ Hset2).
  - subst items'. split; by attr_lookup.
Qed.

Lemma validate_against_schema_resolution_raises W self value inst st e st' :
  get_schema W self inst st = (Raise e, st') ->
  validate_against_schema W self value inst st = (Raise e, st').
Proof. intros H. unfold validate_against_schema. by rewrite (bind_raise_eq _ _ _ _ _ H). Qed.

(** C7. When a segment of a dotted path cannot be read, or when a
    computed spec raises, the exception raised by the host is the result of
    [get_schema] and of [validate_against_schema], whatever its class: the
    failing call is the last call made, so the engine is not run and
    nothing is translated. *)
Theorem resolution_errors_propagate W self value inst st schema :
  field_attr (heap st) self "_schema" = Some schema ->
  (forall s segs1 a segs2 evs o1 h1 e h2,
      path_reference (heap st) schema (split "." s) ->
      split "." s = segs1 ++ a :: segs2 ->
      attr_chain W segs1 inst (heap st) evs o1 h1 ->
      w_getattr W o1 a h1 = (Raise e, h2) ->
      let st' := State h2 (trace st ++ evs ++ [EvGetattr o1 a]) in
      get_schema W self inst st = (Raise e, st') /\
      validate_against_schema W self value inst st = (Raise e, st')) /\
  (forall e h2,
      callable (w_class_callable W) (heap st) schema = true ->
      is_FieldReference (heap st) schema = None ->
      w_call W schema inst (heap st) = (Raise e, h2) ->
      let st' := State h2 (trace st ++ [EvCall schema inst]) in
      get_schema W self inst st = (Raise e, st') /\
      validate_against_schema W self value inst st = (Raise e, st')).
Proof.
  intros Hs. split.
  - intros s segs1 a segs2 evs o1 h1 e h2 Href Hsplit Hchain Hfail st'.
    assert (Hg : get_schema W self inst st = (Raise e, st')).
    { rewrite (get_schema_path _ _ _ _ _ _ Hs Href), Hsplit.
      destruct st as [h tr]. by eapply walk_chain_raise. }
    split; [done|]. by apply validate_against_schema_resolution_raises.
  - intros e h2 Hc Hf Hcall st'.
    assert (Hg : get_schema W self inst st = (Raise e, st')).
    { rewrite (get_schema_computed _ _ _ _ _ Hs Hc Hf). by apply extcall_eq. }
    split; [done|]. by apply validate_against_schema_resolution_raises.
Qed.

Lemma callable_mapping cc h l items :
  h !! l = Some (ODict items) -> callable cc h (VRef l) = false.
Proof. intros H. unfold callable. by rewrite H. Qed.

(** C8. A field constructed from [None] resolves, for every instance, to
    an empty mapping, and when the engine accepts every value against an
    empty mapping, validating any value succeeds.  A field constructed
    from a mapping resolves to that very object: the same reference, in an
    unchanged state. *)
Theorem none_and_mapping_specs W self fc args kwargs st0 st inst :
  (JSONSchemaField_init W self VNone fc args kwargs st0 = (Ret tt, st) ->
   exists d,
     get_schema W self inst st = (Ret (VRef d), st) /\
     heap st !! d = Some (ODict ∅) /\
     ((forall value h d', h !! d' = Some (ODict ∅) ->
                          exists h', w_validate W value (VRef d') fc h = (Ret tt, h')) ->
      forall value, exists st',
          validate_against_schema W self value inst st = (Ret tt, st'))) /\
  (forall m items,
      JSONSchemaField_init W self (VRef m) fc args kwargs st0 = (Ret tt, st) ->
      heap st !! m = Some (ODict items) ->
      get_schema W self inst st = (Ret (VRef m), st)).
Proof.
  split.
  - intros H. apply init_None_inv in H as (d & Hs & Hd & _ & Hfc & _).
    assert (Hg : get_schema W self inst st = (Ret (VRef d), st))
      by (apply get_schema_not_callable; [done|by eapply callable_mapping]).
    exists d. split; [done|]. split; [done|].
    intros Hengine value. destruct (Hengine value (heap st) d Hd) as [h' Hv].
    eexists. by rewrite (engine_call_eq _ _ _ _ _ _ _ _ _ _ Hg Hfc Hv).
  - intros m items H Hm.
    apply init_other_inv in H as (_ & _ & Hs & _); [|done..].
    apply get_schema_not_callable; [done|by eapply callable_mapping].
Qed.

(** C9. [get_schema], [validate_against_schema] and [validate] leave every
    object that the host, the engine and the base validation leave alone
    exactly as it was: the field with its [_schema_kwarg], [_schema] and
    [format_checker], the value, the instance.  [deconstruct] leaves every
    instance, the field among them, as it was. *)
Theorem methods_leave_stored_state_unchanged W l :
  (forall o a, keeps l (w_getattr W o a)) ->
  (forall f x, keeps l (w_call W f x)) ->
  (forall v s c, keeps l (w_validate W v s c)) ->
  (forall self v i, keeps l (w_super_validate W self v i)) ->
  (forall self, keeps l (w_super_deconstruct W self)) ->
  forall self value inst st o,
    heap st !! l = Some o ->
    heap (get_schema W self inst st).2 !! l = Some o /\
    heap (validate_against_schema W self value inst st).2 !! l = Some o /\
    heap (validate W self value inst st).2 !! l = Some o /\
    (forall c attrs, o = OInst c attrs -> heap (deconstruct W self st).2 !! l = Some o).
Proof.
  intros Hget Hcall Hval Hsval Hdec self value inst st o Ho.
  assert (Hrefl : forall st1, same_object l st1 st1) by (by intros st1 o').
  assert (Htrans : forall a b c, same_object l a b -> same_object l b c -> same_object l a c)
    by (intros a b c Hab Hbc o' Ho'; by apply Hbc, Hab).
  repeat split.
  - apply (inv_get_schema W (same_object l)); try done;
      intros; by apply same_object_extcall.
  - apply (inv_validate_against_schema W (same_object l)); try done;
      intros; by apply same_object_extcall.
  - apply (inv_validate W (same_object l)); try done;
      intros; by apply same_object_extcall.
  - intros c attrs ->. revert c attrs Ho.
    change (same_instance l st (deconstruct W self st).2).
    assert (Hrefl' : forall st1, same_instance l st1 st1) by (by intros st1 c' a').
    assert (Htrans' : forall a b c, same_instance l a b -> same_instance l b c ->
                                    same_instance l a c)
      by (intros a b c Hab Hbc c' a' Ho'; by apply Hbc, Hab).
    revert st. change (step_invariant (same_instance l) (deconstruct W self)).
    unfold deconstruct. apply inv_bind; [done| |].
    + intros st. apply same_object_instance. by apply same_object_extcall.
    + intros [[[name path] a] kw].
      apply inv_bind; [done|by apply inv_read_attr|]. intros v1.
      apply inv_bind; [done|apply same_instance_set_item|]. intros _.
      apply inv_bind; [done|by apply inv_read_attr|]. intros v2.
      apply inv_bind; [done|apply same_instance_set_item|]. intros _.
      by apply inv_ret.
Qed.

(** ** The reference world leaves existing objects alone *)

Lemma insert_fresh_keeps (h : heap_t) x l o :
  h !! l = Some o -> <[fresh_loc h := x]> h !! l = Some o.
Proof. intros H. rewrite lookup_insert_ne; [done|]. symmetry. by eapply fresh_loc_ne. Qed.

Lemma reify_keeps :
  (forall j h l o, h !! l = Some o -> (Reference.reify j h).2 !! l = Some o) /\
  (forall a h l o, h !! l = Some o -> (Reference.reify_arr a h).2 !! l = Some o) /\
  (forall m acc h l o, h !! l = Some o -> (Reference.reify_obj m acc h).2 !! l = Some o).
Proof.
  apply json_mutind; simpl; try done.
  - intros a IH h l o H. specialize (IH h l o H).
    destruct (Reference.reify_arr a h) as [vs h1]. simpl in *.
    by apply insert_fresh_keeps.
  - intros m IH h l o H. specialize (IH ∅ h l o H).
    destruct (Reference.reify_obj m ∅ h) as [items h1]. simpl in *.
    by apply insert_fresh_keeps.
  - intros j IHj rest IHr h l o H. specialize (IHj h l o H).
    destruct (Reference.reify j h) as [v h1]. simpl in *.
    specialize (IHr h1 l o IHj).
    by destruct (Reference.reify_arr rest h1) as [vs h2].
  - intros key j IHj rest IHr acc h l o H. specialize (IHj h l o H).
    destruct (Reference.reify j h) as [v h1]. simpl in *. by apply IHr.
Qed.

Lemma reference_json_loads_keeps l s options : keeps l (Reference.json_loads s options).
Proof.
  intros h o H. unfold Reference.json_loads.
  assert (Hrun : (match Reference.decode s with
                  | Reference.POk j _ => let '(v, h') := Reference.reify j h in (Ret v, h')
                  | Reference.PBad => (Raise (JSONDecodeError "Expecting value"), h)
                  | Reference.PUncovered =>
                      (Raise (OtherError "NotImplementedError" "float literal or \u escape"), h)
                  end).2 !! l = Some o).
  { destruct (Reference.decode s) as [j rest| |]; try done.
    pose proof (proj1 reify_keeps j h l o H) as Hj.
    by destruct (Reference.reify j h). }
  destruct (Reference.lookup_kw "cls" options) as [[| | | |lc]|]; try done.
  destruct (h !! lc) as [[| | | |name methods]|]; try done.
  by destruct (bool_decide ("decode" ∈ methods)).
Qed.

Lemma reference_getattr_keeps l o a : keeps l (Reference.getattr o a).
Proof.
  intros h x H. unfold Reference.getattr. destruct o as [| | | |lo]; try done.
  destruct (h !! lo) as [[| |c attrs| |]|]; try done.
  by destruct (attrs !! a).
Qed.

Lemma reference_call_keeps l f x : keeps l (Reference.call f x).
Proof.
  intros h o H. unfold Reference.call. destruct f as [| | | |lf]; try done.
  destruct (h !! lf) as [[| | |src|name methods]|]; try done.
  - repeat case_match; simpl; try done. by apply insert_fresh_keeps.
  - simpl. by apply insert_fresh_keeps.
Qed.

Lemma reference_validate_keeps l v s c : keeps l (Reference.validate v s c).
Proof.
  intros h o H. unfold Reference.validate. destruct c as [| | | |lc]; try done.
  destruct (h !! lc) as [[| | | |name methods]|]; try done.
  by destruct (bool_decide ("check_schema" ∈ methods)).
Qed.

Lemma reference_super_validate_keeps l self v i : keeps l (Reference.super_validate self v i).
Proof.
  intros h o H. unfold Reference.super_validate. by repeat case_match.
Qed.

Lemma reference_super_deconstruct_keeps l self : keeps l (Reference.super_deconstruct self).
Proof.
  intros h o H. unfold Reference.super_deconstruct. simpl.
  by do 2 apply insert_fresh_keeps.
Qed.

(** The reference engine accepts every value against an empty mapping. *)
Lemma reference_engine_accepts_empty value (h : heap_t) d :
  h !! d = Some (ODict ∅) ->
  exists h', Reference.validate value (VRef d) VNone h = (Ret tt, h').
Proof.
  intros H. exists h. unfold Reference.validate. simpl. by rewrite H.
Qed.

(** A text that does not decode is never returned as a value by the
    reference [json.loads]. *)
Lemma reference_json_loads_not_json s options (h : heap_t) v h' :
  Reference.decode s = Reference.PBad ->
  Reference.json_loads s options h <> (Ret v, h').
Proof.
  intros Hbad. unfold Reference.json_loads. rewrite Hbad.
  destruct (Reference.lookup_kw "cls" options) as [[| | | |lc]|]; try done.
  destruct (h !! lc) as [[| | | |name methods]|]; try done.
  by destruct (bool_decide ("decode" ∈ methods)).
Qed.

(** ** The claims on the example fields *)

Import Examples.

(** A field declared with the mapping [{"type": "integer"}] rejects ['x']
    with code [invalid_data]; one declared with [{"type": 123}] fails with
    code [invalid_schema_definition]; the first accepts 5. *)
Lemma validate_against_schema_maps_engine_reports_witness :
  (let st := declared (VRef 3) in
   validate_against_schema world 9 (VStr "x") (VRef 1) st
   = (Raise (ValidationError "'x' is not of type 'integer'" "invalid_data"),
      State (heap st) (trace st ++ [EvEngineValidate (VStr "x") (VRef 3) VNone]))) /\
  (let st := declared (VRef 4) in
   validate_against_schema world 9 (VInt 5) (VRef 1) st
   = (Raise (ValidationError "123 is not valid under any of the given schemas"
                             "invalid_schema_definition"),
      State (heap st) (trace st ++ [EvEngineValidate (VInt 5) (VRef 4) VNone]))) /\
  (let st := declared (VRef 3) in
   validate_against_schema world 9 (VInt 5) (VRef 1) st
   = (Ret tt, State (heap st) (trace st ++ [EvEngineValidate (VInt 5) (VRef 3) VNone]))).
Proof.
  split; [|split]; intros st.
  - apply (proj1 (validate_against_schema_maps_engine_reports
                    world 9 (VStr "x") (VRef 1) st (VRef 3) st VNone (heap st)
                    ltac:(run) ltac:(run))).
    run.
  - apply (proj1 (proj2 (validate_against_schema_maps_engine_reports
                    world 9 (VInt 5) (VRef 1) st (VRef 4) st VNone (heap st)
                    ltac:(run) ltac:(run)))).
    run.
  - apply (proj2 (proj2 (validate_against_schema_maps_engine_reports
                    world 9 (VInt 5) (VRef 1) st (VRef 3) st VNone (heap st)
                    ltac:(run) ltac:(run)))).
    run.
Defined.

(** C1, as stated, fails: for the schema [{"$ref": "#/definitions/missing"}]
    and the value ['x'] the engine reports neither that the value does not
    conform nor that the schema is malformed, and yet
    [validate_against_schema] does not return: the engine's
    reference-resolution error is its result. *)
Lemma neither_report_yet_no_return :
  let st := declared (VRef 5) in
  let r := (w_validate world (VStr "x") (VRef 5) VNone (heap st)).1 in
  get_schema world 9 (VRef 1) st = (Ret (VRef 5), st) /\
  (forall message, r <> Raise (jsonschema_ValidationError message)) /\
  (forall message, r <> Raise (jsonschema_SchemaError message)) /\
  (forall st', validate_against_schema world 9 (VStr "x") (VRef 1) st <> (Ret tt, st')).
Proof.
  intros st r.
  assert (Hr : r = Raise (OtherError "jsonschema.exceptions.RefResolutionError"
                                      "Unresolvable JSON pointer: 'definitions/missing'"))
    by run.
  assert (Hv : (validate_against_schema world 9 (VStr "x") (VRef 1) st).1
               = Raise (OtherError "jsonschema.exceptions.RefResolutionError"
                                   "Unresolvable JSON pointer: 'definitions/missing'"))
    by run.
  split; [run|]. split; [by rewrite Hr|]. split; [by rewrite Hr|].
  intros st' H. by rewrite H in Hv.
Qed.

(** C4, as stated, fails: for the schema [{"$ref": "#/definitions/missing"}]
    the engine raises its reference-resolution error, and
    [validate_against_schema] raises that very exception, not the host
    validation error. *)
Lemma engine_reference_error_escapes :
  let st := declared (VRef 5) in
  let e := OtherError "jsonschema.exceptions.RefResolutionError"
                       "Unresolvable JSON pointer: 'definitions/missing'" in
  w_validate world (VInt 5) (VRef 5) VNone (heap st) = (Raise e, heap st) /\
  validate_against_schema world 9 (VInt 5) (VRef 1) st
  = (Raise e, State (heap st) (trace st ++ [EvEngineValidate (VInt 5) (VRef 5) VNone])) /\
  (forall message code, e <> ValidationError message code).
Proof. split; [run|split; [run|done]]. Qed.

Lemma validate_against_schema_engine_exceptions_witness :
  let st := declared (VRef 5) in
  let e := OtherError "jsonschema.exceptions.RefResolutionError"
                       "Unresolvable JSON pointer: 'definitions/missing'" in
  get_schema world 9 (VRef 1) st = (Ret (VRef 5), st) /\
  field_attr (heap st) 9 "format_checker" = Some VNone /\
  w_validate world (VInt 5) (VRef 5) VNone (heap st) = (Raise e, heap st) /\
  validate_against_schema world 9 (VInt 5) (VRef 1) st
  = (Raise e, State (heap st) (trace st ++ [EvEngineValidate (VInt 5) (VRef 5) VNone])).
Proof.
  intros st e.
  assert (H1 : get_schema world 9 (VRef 1) st = (Ret (VRef 5), st)) by run.
  assert (H2 : field_attr (heap st) 9 "format_checker" = Some VNone) by run.
  assert (H3 : w_validate world (VInt 5) (VRef 5) VNone (heap st) = (Raise e, heap st)) by run.
  split; [exact H1|]. split; [exact H2|]. split; [exact H3|].
  exact (validate_against_schema_engine_exceptions
           world 9 (VInt 5) (VRef 1) st (VRef 5) st VNone e (heap st) H1 H2 H3).
Defined.

(** C2, as stated, fails: the text [123] parses, and the stored schema is
    the number 123, neither a mapping nor a path reference. *)
Lemma numeric_text_spec_stores_a_number :
  let r := declare (VStr "123") [] in
  r.1 = Ret 9%positive /\
  field_attr (heap r.2) 9 "_schema" = Some (VInt 123) /\
  ~ is_mapping (heap r.2) (VInt 123) /\
  ~ (exists segs, path_reference (heap r.2) (VInt 123) segs).
Proof.
  split; [run|split; [run|split]].
  - intros (l & items & Heq & _). discriminate.
  - intros (segs & l & ls & attrs & Heq & _). discriminate.
Qed.

Lemma string_spec_parsed_once_at_construction_witness :
  let st := declared (VStr "a.b") in
  JSONSchemaField_init world 9 (VStr "a.b") VNone [] [] allocated = (Ret tt, st) /\
  (exists options schema' h2,
      trace st = trace allocated ++ [EvSuperInit 9 [] []; EvJsonLoads "a.b" options] /\
      field_attr (heap st) 9 "_schema" = Some schema' /\
      ((exists h3, w_json_loads world "a.b" options h2 = (Ret schema', h3)) \/
       (exists msg h3,
           w_json_loads world "a.b" options h2 = (Raise (JSONDecodeError msg), h3) /\
           path_reference (heap st) schema' (split "." "a.b")))) /\
  no_json_loads st (validate world 9 (VInt 1) (VRef 1) st).2.
Proof.
  intros st.
  assert (H : JSONSchemaField_init world 9 (VStr "a.b") VNone [] [] allocated = (Ret tt, st))
    by run.
  destruct (string_spec_parsed_once_at_construction world 9 "a.b" VNone [] [] allocated st H)
    as [H1 H2].
  split; [exact H|]. split; [exact H1|].
  exact (proj2 (proj2 (H2 (VInt 1) (VRef 1) st))).
Defined.

Lemma dotted_path_resolution_witness :
  let st := declared (VStr "a.b") in
  JSONSchemaField_init world 9 (VStr "a.b") VNone [] [] allocated = (Ret tt, st) /\
  Reference.decode "a.b" = Reference.PBad /\
  w_getattr world (VRef 1) "a" (heap st) = (Ret (VRef 2), heap st) /\
  w_getattr world (VRef 2) "b" (heap st) = (Ret (VInt 5), heap st) /\
  get_schema world 9 (VRef 1) st
  = (Ret (VInt 5),
     State (heap st) (trace st ++ [EvGetattr (VRef 1) "a"; EvGetattr (VRef 2) "b"])).
Proof.
  intros st.
  assert (H1 : JSONSchemaField_init world 9 (VStr "a.b") VNone [] [] allocated = (Ret tt, st))
    by run.
  assert (H2 : Reference.decode "a.b" = Reference.PBad) by run.
  assert (H3 : w_getattr world (VRef 1) "a" (heap st) = (Ret (VRef 2), heap st)) by run.
  assert (H4 : w_getattr world (VRef 2) "b" (heap st) = (Ret (VInt 5), heap st)) by run.
  split; [exact H1|]. split; [exact H2|]. split; [exact H3|]. split; [exact H4|].
  exact (proj2 (dotted_path_resolution world 9 "a.b" VNone [] [] allocated st (VRef 1)
                  H1 (fun options h v h' => reference_json_loads_not_json "a.b" options h v h' H2))
               eq_refl (VRef 2) (heap st) (heap st) H3 H4).
Defined.

(** C5.  A field declared with the valid JSON text [{}] and the encoder
    class [6] does not get constructed: [json.loads] is given the encoder
    as [cls], finds no [decode] on it and raises [AttributeError], which
    [__init__] lets through.  The same text without an encoder is decoded
    and the field is constructed. *)
Theorem encoder_as_decoder_fails_construction :
  let r := declare (VStr "{}") [("encoder", VRef 6)] in
  Reference.decode "{}" = Reference.POk (Reference.JObj Reference.MNil) EmptyString /\
  r.1 = Raise (AttributeError "decode") /\
  trace r.2 = [EvSuperInit 9 [] [("encoder", VRef 6)]; EvJsonLoads "{}" [("cls", VRef 6)]] /\
  field_attr (heap r.2) 9 "_schema" = None /\
  (declare (VStr "{}") []).1 = Ret 9%positive /\
  is_mapping (heap (declared (VStr "{}"))) (VRef 10).
Proof.
  split; [run|]. split; [run|]. split; [run|]. split; [run|]. split; [run|].
  exists 10%positive, ∅. split; [reflexivity|run].
Qed.

Lemma deconstruct_returns_original_spec_witness :
  let st := declared (VStr "a.b") in
  JSONSchemaField_init world 9 (VStr "a.b") VNone [] [] allocated = (Ret tt, st) /\
  exists st' items',
    deconstruct world 9 st
    = (Ret (VNone, VStr "models.fields.JSONSchemaField", VRef 12, VRef 13), st') /\
    heap st' !! 13%positive = Some (ODict items') /\
    items' = <["format_checker" := VNone]> (<["schema" := VStr "a.b"]> ∅) /\
    items' !! "schema" = Some (VStr "a.b") /\
    items' !! "format_checker" = Some VNone.
Proof.
  intros st.
  assert (H : JSONSchemaField_init world 9 (VStr "a.b") VNone [] [] allocated = (Ret tt, st))
    by run.
  split; [exact H|].
  exact (deconstruct_returns_original_spec
           world 9 (VStr "a.b") VNone [] [] allocated st
           VNone (VStr "models.fields.JSONSchemaField") (VRef 12) 13%positive
           (w_super_deconstruct world 9 (heap st)).2 ∅
           H (reference_json_loads_keeps 9%positive)
           (reference_super_deconstruct_keeps 9%positive 9%positive)
           ltac:(run) ltac:(run)).
Defined.

(** The field declared with ["a.c"] fails on the second segment with the
    host's [AttributeError]; the field declared with a function that
    divides by zero fails with [ZeroDivisionError]. *)
Lemma resolution_errors_propagate_witness :
  (let st := declared (VStr "a.c") in
   let st' := State (heap st)
                    (trace st ++ [EvGetattr (VRef 1) "a"] ++ [EvGetattr (VRef 2) "c"]) in
   get_schema world 9 (VRef 1) st = (Raise (AttributeError "c"), st') /\
   validate_against_schema world 9 (VInt 1) (VRef 1) st = (Raise (AttributeError "c"), st')) /\
  (let st := declared (VRef 8) in
   let e := OtherError "ZeroDivisionError" "integer division or modulo by zero" in
   let st' := State (heap st) (trace st ++ [EvCall (VRef 8) (VRef 1)]) in
   get_schema world 9 (VRef 1) st = (Raise e, st') /\
   validate_against_schema world 9 (VInt 1) (VRef 1) st = (Raise e, st')).
Proof.
  split.
  - intros st.
    assert (Href : path_reference (heap st) (VRef 10) (split "." "a.c")).
    { exists 10%positive, 11%positive, {[ "source" := VRef 11 ]}.
      split; [reflexivity|]. split; [run|]. split; run. }
    assert (Hchain : attr_chain world ["a"] (VRef 1) (heap st)
                                [EvGetattr (VRef 1) "a"] (VRef 2) (heap st)).
    { eapply chain_cons; [run|constructor]. }
    exact (proj1 (resolution_errors_propagate
                    world 9 (VInt 1) (VRef 1) st (VRef 10) ltac:(run))
                 "a.c" ["a"] "c" [] [EvGetattr (VRef 1) "a"] (VRef 2) (heap st)
                 (AttributeError "c") (heap st)
                 Href eq_refl Hchain ltac:(run)).
  - intros st e.
    exact (proj2 (resolution_errors_propagate
                    world 9 (VInt 1) (VRef 1) st (VRef 8) ltac:(run))
                 e (heap st) ltac:(run) ltac:(run) ltac:(run)).
Defined.

Lemma none_and_mapping_specs_witness :
  (JSONSchemaField_init world 9 VNone VNone [] [] allocated = (Ret tt, declared VNone) /\
   exists d,
     get_schema world 9 (VRef 1) (declared VNone) = (Ret (VRef d), declared VNone) /\
     heap (declared VNone) !! d = Some (ODict ∅) /\
     forall value, exists st',
         validate_against_schema world 9 value (VRef 1) (declared VNone) = (Ret tt, st')) /\
  (JSONSchemaField_init world 9 (VRef 3) VNone [] [] allocated = (Ret tt, declared (VRef 3)) /\
   get_schema world 9 (VRef 1) (declared (VRef 3)) = (Ret (VRef 3), declared (VRef 3))).
Proof.
  split.
  - assert (H : JSONSchemaField_init world 9 VNone VNone [] [] allocated
                = (Ret tt, declared VNone)) by run.
    split; [exact H|].
    destruct (proj1 (none_and_mapping_specs world 9 VNone [] [] allocated
                       (declared VNone) (VRef 1)) H) as (d & Hg & Hd & Hv).
    exists d. split; [exact Hg|]. split; [exact Hd|].
    apply Hv. intros value h d' Hd'. by apply reference_engine_accepts_empty.
  - assert (H : JSONSchemaField_init world 9 (VRef 3) VNone [] [] allocated
                = (Ret tt, declared (VRef 3))) by run.
    assert (Hm : heap (declared (VRef 3)) !! 3%positive
                 = Some (ODict {[ "type" := VStr "integer" ]})) by run.
    split; [exact H|].
    exact (proj2 (none_and_mapping_specs world 9 VNone [] [] allocated
                    (declared (VRef 3)) (VRef 1))
                 3%positive _ H Hm).
Defined.

Lemma methods_leave_stored_state_unchanged_witness :
  let st := declared (VStr "a.b") in
  let o := field_of st in
  heap st !! 9%positive = Some o /\
  heap (get_schema world 9 (VRef 1) st).2 !! 9%positive = Some o /\
  heap (validate_against_schema world 9 (VRef 3) (VRef 1) st).2 !! 9%positive = Some o /\
  heap (validate world 9 (VRef 3) (VRef 1) st).2 !! 9%positive = Some o /\
  heap (deconstruct world 9 st).2 !! 9%positive = Some o.
Proof.
  intros st o.
  assert (H : heap st !! 9%positive = Some o) by run.
  destruct (methods_leave_stored_state_unchanged
              world 9%positive
              (reference_getattr_keeps 9%positive)
              (reference_call_keeps 9%positive)
              (reference_validate_keeps 9%positive)
              (reference_super_validate_keeps 9%positive)
              (reference_super_deconstruct_keeps 9%positive)
              9%positive (VRef 3) (VRef 1) st o H) as (H1 & H2 & H3 & H4).
  split; [exact H|]. split; [exact H1|]. split; [exact H2|]. split; [exact H3|].
  eapply H4. run.
Defined.

(** The base validation rejects a function object as a value, and
    nothing else is called; it accepts ['x'], and the field validation goes
    on. *)
Lemma validate_runs_base_validation_first_witness :
  (let st := declared (VRef 7) in
   validate world 9 (VRef 8) (VRef 1) st
   = (Raise (ValidationError "Value must be valid JSON." "invalid"),
      State (heap st) (trace st ++ [EvSuperValidate 9 (VRef 8) (VRef 1)]))) /\
  (let st := declared (VRef 7) in
   validate world 9 (VStr "x") (VRef 1) st
   = validate_against_schema world 9 (VStr "x") (VRef 1)
       (State (heap st) (trace st ++ [EvSuperValidate 9 (VStr "x") (VRef 1)]))).
Proof.
  split; intros st.
  - exact (proj1 (validate_runs_base_validation_first
                    world 9 (VRef 8) (VRef 1) st (heap st))
                 (ValidationError "Value must be valid JSON." "invalid") ltac:(run)).
  - exact (proj2 (validate_runs_base_validation_first
                    world 9 (VStr "x") (VRef 1) st (heap st)) ltac:(run)).
Defined.

(** ** [split]: the segments of a source string *)

Lemma string_app_assoc' (a b c : string) : ((a ++ b) ++ c = a ++ (b ++ c))%string.
Proof. induction a as [|x a IH]; [done|]. change (String x ((a ++ b) ++ c) = String x (a ++ (b ++ c)))%string. by f_equal. Qed.

Lemma string_app_nil_r' (a : string) : (a ++ EmptyString = a)%string.
Proof. induction a as [|x a IH]; [done|]. change (String x (a ++ EmptyString) = String x a)%string. by f_equal. Qed.

(** The accumulator of [split_aux] is a prefix of the first segment. *)
Lemma split_aux_cur sep s cur :
  split_aux sep s cur
  = match split_aux sep s EmptyString with
    | x :: xs => (cur ++ x)%string :: xs
    | [] => []
    end.
Proof.
  revert cur. induction s as [|c s IH]; intros cur; simpl.
  - by rewrite string_app_nil_r'.
  - destruct (Ascii.eqb c sep).
    + by rewrite string_app_nil_r'.
    + rewrite (IH (cur ++ String c EmptyString)%string).
      rewrite (IH (EmptyString ++ String c EmptyString)%string).
      destruct (split_aux sep s EmptyString) as [|x xs]; [done|].
      rewrite string_app_assoc'. reflexivity.
Qed.

Lemma split_nonempty sep s : split sep s <> [].
Proof.
  unfold split. generalize EmptyString.
  induction s as [|c s IH]; intros cur; simpl; [done|].
  destruct (Ascii.eqb c sep); [done|apply IH].
Qed.

Lemma split_sep sep s : split sep (String sep s) = EmptyString :: split sep s.
Proof. unfold split. simpl. by rewrite Ascii.eqb_refl. Qed.

Lemma split_other sep c s :
  c <> sep ->
  split sep (String c s)
  = match split sep s with
    | x :: xs => String c x :: xs
    | [] => []
    end.
Proof.
  intros Hne. unfold split. simpl.
  apply Ascii.eqb_neq in Hne. rewrite Hne.
  by rewrite split_aux_cur.
Qed.

Lemma join_cons sep x y ys :
  join sep (x :: y :: ys) = (x ++ String sep (join sep (y :: ys)))%string.
Proof. reflexivity. Qed.

Lemma join_split sep s : join sep (split sep s) = s.
Proof.
  induction s as [|c s IH]; [done|].
  destruct (decide (c = sep)) as [->|Hne].
  - rewrite split_sep.
    pose proof (split_nonempty sep s) as Hn.
    destruct (split sep s) as [|y ys] eqn:E; [done|].
    rewrite join_cons, IH. reflexivity.
  - rewrite (split_other _ _ _ Hne).
    pose proof (split_nonempty sep s) as Hn.
    destruct (split sep s) as [|y ys] eqn:E; [done|].
    destruct ys as [|z zs].
    + simpl in *. by rewrite IH.
    + rewrite join_cons in *. change (String c (y ++ String sep (join sep (z :: zs))) = String c s)%string.
      by rewrite IH.
Qed.

Lemma split_free sep x : contains sep x = false -> split sep x = [x].
Proof.
  induction x as [|c x IH]; [done|]. intros H.
  simpl in H. apply orb_false_elim in H as [Hc Hx].
  rewrite split_other by (by apply Ascii.eqb_neq).
  by rewrite (IH Hx).
Qed.

Lemma split_app_sep sep x rest :
  contains sep x = false ->
  split sep (x ++ String sep rest) = x :: split sep rest.
Proof.
  induction x as [|c x IH]; intros H; [apply split_sep|].
  simpl in H. apply orb_false_elim in H as [Hc Hx].
  change (split sep (String c (x ++ String sep rest)) = String c x :: split sep rest).
  rewrite split_other by (by apply Ascii.eqb_neq).
  by rewrite (IH Hx).
Qed.

Lemma split_join sep segs :
  segs <> [] -> Forall (fun x => contains sep x = false) segs ->
  split sep (join sep segs) = segs.
Proof.
  intros Hne Hfree. induction Hfree as [|x rest Hx Hrest IH]; [done|].
  destruct rest as [|y ys]; [by apply split_free|].
  rewrite join_cons, split_app_sep by done. by rewrite IH.
Qed.

Lemma split_segments_free sep s :
  Forall (fun x => contains sep x = false) (split sep s).
Proof.
  induction s as [|c s IH]; [by repeat constructor|].
  destruct (decide (c = sep)) as [->|Hne].
  - rewrite split_sep. by constructor.
  - rewrite (split_other _ _ _ Hne).
    destruct (split sep s) as [|y ys]; [done|].
    inversion IH as [|? ? Hy Hys]; subst. constructor; [|done].
    simpl. apply Ascii.eqb_neq in Hne. by rewrite Hne.
Qed.

Lemma split_length sep s : length (split sep s) = S (occurrences sep s).
Proof.
  induction s as [|c s IH]; [done|]. simpl occurrences.
  destruct (decide (c = sep)) as [->|Hne].
  - rewrite split_sep, Ascii.eqb_refl. simpl. by rewrite IH.
  - rewrite (split_other _ _ _ Hne).
    apply Ascii.eqb_neq in Hne. rewrite Hne. simpl.
    by destruct (split sep s).
Qed.

(** ** More on resolution *)

Lemma bind_ret_r {A} (m : M A) st : bind m ret st = m st.
Proof. unfold bind, ret. by destruct (m st) as [[a|e] st']. Qed.

(** X1. The reference built from a source string [s] always gets built;
    its segments are never an empty list, none of them contains a dot,
    there is one more of them than there are dots in [s], and joining them
    with dots gives [s] back. *)
Theorem FieldReference_segments s st :
  exists v st' segs,
    FieldReference_new s st = (Ret v, st') /\
    path_reference (heap st') v segs /\
    join "." segs = s /\
    Forall (fun x => contains "." x = false) segs /\
    length segs = S (occurrences "." s).
Proof.
  destruct (FieldReference_new_spec s st) as (v & st' & Hnew & _ & Href & _).
  exists v, st', (split "." s).
  split; [done|]. split; [done|]. split; [apply join_split|].
  split; [apply split_segments_free|apply split_length].
Qed.

(** X2. Two source strings with the same segments are the same string,
    and any non-empty list of dot-free names is the list of segments of the
    string that joins them with dots: source strings and attribute paths
    correspond one to one. *)
Theorem segments_of_joined_names :
  (forall s1 s2, split "." s1 = split "." s2 -> s1 = s2) /\
  (forall segs,
      segs <> [] ->
      Forall (fun x => contains "." x = false) segs ->
      split "." (join "." segs) = segs).
Proof.
  split.
  - intros s1 s2 H. by rewrite <- (join_split "." s1), <- (join_split "." s2), H.
  - intros segs Hne Hfree. by apply split_join.
Qed.

(** X3. A field declared with a name without dots that is not JSON text
    resolves by a single attribute read of that name on the instance: the
    outcome of the read, a value or an exception, is the outcome of the
    resolution. *)
Theorem single_name_spec_is_one_attribute_read W self s fc args kwargs st0 st inst :
  JSONSchemaField_init W self (VStr s) fc args kwargs st0 = (Ret tt, st) ->
  (forall options h v h', w_json_loads W s options h <> (Ret v, h')) ->
  contains "." s = false ->
  get_schema W self inst st = extcall (EvGetattr inst s) (w_getattr W inst s) st.
Proof.
  intros Hinit Hnot Hfree.
  apply init_str_inv in Hinit
    as (h1 & c & attrs & encoder & ref & _ & _ & _ & _ & Hs & _ & Hcase & _).
  destruct Hcase as [[h3 Hret]|(msg & h3 & _ & Href)]; [by destruct (Hnot _ _ _ _ Hret)|].
  rewrite (split_free _ _ Hfree) in Href.
  rewrite (get_schema_path _ _ _ _ _ _ Hs Href).
  simpl. unfold getattr. apply bind_ret_r.
Qed.

Lemma walk_events W segs o st :
  exists os,
    length os <= length segs /\
    trace (walk W (VStr <$> segs) o st).2 = trace st ++ zip_with EvGetattr os segs /\
    (forall o' os', os = o' :: os' -> o' = o) /\
    (forall v, (walk W (VStr <$> segs) o st).1 = Ret v -> length os = length segs).
Proof.
  revert o st. induction segs as [|a segs IH]; intros o st.
  - exists []. simpl. rewrite app_nil_r. repeat split; try done.
  - destruct (w_getattr W o a (heap st)) as [[o1|e] h1] eqn:Hg.
    + destruct (IH o1 (State h1 (trace st ++ [EvGetattr o a])))
        as (os & Hlen & Htr & _ & Hret).
      assert (Hw : walk W (VStr <$> a :: segs) o st
                   = walk W (VStr <$> segs) o1 (State h1 (trace st ++ [EvGetattr o a])))
        by apply (bind_ret_eq _ _ _ _ _ (extcall_eq _ _ _ _ _ Hg)).
      exists (o :: os). rewrite Hw, Htr. cbn [length zip_with trace].
      split; [lia|]. split; [by rewrite <- app_assoc|].
      split; [by intros ? ? [= <- _]|].
      intros v Hv. by rewrite (Hret v Hv).
    + assert (Hw : walk W (VStr <$> a :: segs) o st
                   = (Raise e, State h1 (trace st ++ [EvGetattr o a])))
        by apply (bind_raise_eq _ _ _ _ _ (extcall_eq _ _ _ _ _ Hg)).
      exists [o]. rewrite Hw. cbn [length zip_with trace snd fst].
      split; [lia|]. split; [done|].
      split; [by intros ? ? [= <- _]|]. intros v [=].
Qed.

(** Every walk along [segs] either completes, or reads a prefix of the
    segments and then meets a read that raises. *)
Lemma attr_chain_cases W segs o h :
  (exists evs v h', attr_chain W segs o h evs v h') \/
  (exists segs1 a segs2 evs o1 h1 e h2,
      segs = segs1 ++ a :: segs2 /\
      attr_chain W segs1 o h evs o1 h1 /\
      w_getattr W o1 a h1 = (Raise e, h2)).
Proof.
  revert o h. induction segs as [|a segs IH]; intros o h.
  - left. exists [], o, h. constructor.
  - destruct (w_getattr W o a h) as [[o1|e] h1] eqn:Hg.
    + destruct (IH o1 h1) as [(evs & v & h' & Hc)
                             |(segs1 & b & segs2 & evs & o2 & h2 & e & h3 & -> & Hc & Hf)].
      * left. exists (EvGetattr o a :: evs), v, h'. by eapply chain_cons.
      * right. exists (a :: segs1), b, segs2, (EvGetattr o a :: evs), o2, h2, e, h3.
        split; [done|]. split; [by eapply chain_cons|done].
    + right. exists [], a, segs, [], o, h, e, h1.
      split; [done|]. split; [constructor|done].
Qed.

(** X4. Resolving a stored path reference makes attribute reads and no
    other call: one read per segment, in the order of the segments, the
    first on the instance and each next one on the value just read.  Either
    every read returns, and the value of the last read is the result; or
    the reads of a prefix of the segments return, the read of the next
    segment raises, that exception is the result, and the raising read is
    the last call made: the segments after it are not read. *)
Theorem path_resolution_reads_only_attributes W self inst st ref segs :
  field_attr (heap st) self "_schema" = Some ref ->
  path_reference (heap st) ref segs ->
  (exists os,
      length os <= length segs /\
      trace (get_schema W self inst st).2 = trace st ++ zip_with EvGetattr os segs /\
      (forall o' os', os = o' :: os' -> o' = inst) /\
      (forall v, (get_schema W self inst st).1 = Ret v -> length os = length segs)) /\
  ((exists evs v h',
       attr_chain W segs inst (heap st) evs v h' /\
       get_schema W self inst st = (Ret v, State h' (trace st ++ evs))) \/
   (exists segs1 a segs2 evs o1 h1 e h2,
       segs = segs1 ++ a :: segs2 /\
       attr_chain W segs1 inst (heap st) evs o1 h1 /\
       w_getattr W o1 a h1 = (Raise e, h2) /\
       get_schema W self inst st
       = (Raise e, State h2 (trace st ++ evs ++ [EvGetattr o1 a])))).
Proof.
  intros Hs Href. rewrite (get_schema_path _ _ _ _ _ _ Hs Href).
  split; [apply walk_events|].
  destruct st as [h tr]. cbn [heap trace].
  destruct (attr_chain_cases W segs inst h)
    as [(evs & v & h' & Hc)|(segs1 & a & segs2 & evs & o1 & h1 & e & h2 & -> & Hc & Hf)].
  - left. exists evs, v, h'. split; [done|]. by apply walk_chain.
  - right. exists segs1, a, segs2, evs, o1, h1, e, h2.
    split; [done|]. split; [done|]. split; [done|]. by eapply walk_chain_raise.
Qed.

(** X5. A field declared with a function: declaring it calls nothing but
    the base initialiser, and each resolution is one call of the function
    with the instance as its only argument, whose outcome, a value or an
    exception, is the outcome of the resolution. *)
Theorem computed_spec_called_with_instance W self f fc args kwargs st0 st inst :
  JSONSchemaField_init W self (VRef f) fc args kwargs st0 = (Ret tt, st) ->
  callable (w_class_callable W) (heap st) (VRef f) = true ->
  is_FieldReference (heap st) (VRef f) = None ->
  trace st = trace st0 ++ [EvSuperInit self args kwargs] /\
  get_schema W self inst st = extcall (EvCall (VRef f) inst) (w_call W (VRef f) inst) st.
Proof.
  intros Hinit Hc Hf.
  apply init_other_inv in Hinit as (h1 & _ & Hs & _ & _ & Htr & _); [|done..].
  split; [done|]. by apply get_schema_computed.
Qed.

(** X6. A field declared with a string that [json.loads] decodes stores
    the decoded value, and resolves to that value for every instance
    without calling anything: the string is not treated as a path. *)
Theorem json_text_spec_resolves_to_parsed_value W self s fc args kwargs st0 st :
  JSONSchemaField_init W self (VStr s) fc args kwargs st0 = (Ret tt, st) ->
  (forall options h msg h', w_json_loads W s options h <> (Raise (JSONDecodeError msg), h')) ->
  exists v,
    (exists options h2 h3, w_json_loads W s options h2 = (Ret v, h3)) /\
    field_attr (heap st) self "_schema" = Some v /\
    (callable (w_class_callable W) (heap st) v = false ->
     forall inst, get_schema W self inst st = (Ret v, st)).
Proof.
  intros Hinit Hnot.
  apply init_str_inv in Hinit
    as (h1 & c & attrs & encoder & v & _ & _ & _ & _ & Hs & _ & Hcase & _).
  destruct Hcase as [[h3 Hret]|(msg & h3 & Hraise & _)]; [|by destruct (Hnot _ _ _ _ Hraise)].
  exists v. split; [eauto|]. split; [done|].
  intros Hc inst. by apply get_schema_not_callable.
Qed.

(** ** More on construction *)

(** X7. With a spec that is not a string, construction cannot fail once
    the base initialiser has returned: it calls nothing else, stores the
    spec and the format checker as passed, and stores as schema either the
    spec itself, leaving every other object as the base initialiser left
    it, or, for [None], an empty mapping at a location that was free. *)
Theorem construction_without_parse W self schema fc args kwargs st0 h1 c attrs :
  (forall s, schema <> VStr s) ->
  w_super_init W self args kwargs (heap st0) = (Ret tt, h1) ->
  h1 !! self = Some (OInst c attrs) ->
  exists st,
    JSONSchemaField_init W self schema fc args kwargs st0 = (Ret tt, st) /\
    trace st = trace st0 ++ [EvSuperInit self args kwargs] /\
    field_attr (heap st) self "_schema_kwarg" = Some schema /\
    field_attr (heap st) self "format_checker" = Some fc /\
    (schema = VNone ->
     exists d, h1 !! d = None /\
               field_attr (heap st) self "_schema" = Some (VRef d) /\
               heap st !! d = Some (ODict ∅)) /\
    (schema <> VNone ->
     field_attr (heap st) self "_schema" = Some schema /\
     forall l, l <> self -> heap st !! l = h1 !! l).
Proof.
  intros Hstr Hsup Hself.
  set (tr1 := trace st0 ++ [EvSuperInit self args kwargs]).
  set (attrs1 := <["_schema_kwarg" := schema]> attrs).
  set (h2 := <[self := OInst c attrs1]> h1).
  assert (Hs2 : h2 !! self = Some (OInst c attrs1)) by apply lookup_insert_eq.
  assert (Hhead : forall k : M unit,
             (extcall (EvSuperInit self args kwargs) (w_super_init W self args kwargs) ;;;
              write_attr self "_schema_kwarg" schema ;;; k) st0 = k (State h2 tr1)).
  { intros k. rewrite (bind_ret_eq _ _ _ _ _ (extcall_eq _ _ _ _ _ Hsup)).
    by rewrite (bind_ret_eq _ _ _ _ _ (write_attr_inst _ _ _ _ _ _ _ Hself)). }
  assert (Htail : forall h3 schema',
             h3 !! self = Some (OInst c attrs1) ->
             (write_attr self "format_checker" fc ;;; write_attr self "_schema" schema')
               (State h3 tr1)
             = (Ret tt,
                State (<[self := OInst c (<["_schema" := schema']>
                                            (<["format_checker" := fc]> attrs1))]>
                         (<[self := OInst c (<["format_checker" := fc]> attrs1)]> h3)) tr1)).
  { intros h3 schema' H3.
    rewrite (bind_ret_eq _ _ _ _ _ (write_attr_inst _ _ _ _ _ _ _ H3)).
    apply write_attr_inst, lookup_insert_eq. }
  destruct (decide (schema = VNone)) as [->|Hnone].
  - set (d := fresh_loc h2).
    assert (Hd : h2 !! d = None) by apply fresh_loc_None.
    assert (Hne : self <> d) by (eapply fresh_loc_ne, Hs2).
    assert (H3 : <[d := ODict ∅]> h2 !! self = Some (OInst c attrs1))
      by (by rewrite lookup_insert_ne).
    eexists. split.
    { unfold JSONSchemaField_init. rewrite Hhead.
      unfold bind at 1. unfold bind at 1. rewrite alloc_eq. cbn [ret heap trace].
      fold d. apply (Htail _ _ H3). }
    cbn [heap trace]. split; [done|]. unfold field_attr. rewrite lookup_insert_eq.
    split; [subst attrs1; by attr_lookup|]. split; [by attr_lookup|].
    split; [|done]. intros _. exists d.
    split; [by subst h2; rewrite lookup_insert_ne in Hd|].
    split; [by attr_lookup|].
    rewrite !lookup_insert_ne by done. apply lookup_insert_eq.
  - eexists. split.
    { unfold JSONSchemaField_init. rewrite Hhead.
      destruct schema as [|b|z|s|l]; try (by destruct (Hstr s)); try done;
        unfold bind at 1; cbn [ret]; apply (Htail _ _ Hs2). }
    cbn [heap trace]. split; [done|]. unfold field_attr. rewrite lookup_insert_eq.
    split; [subst attrs1; by attr_lookup|]. split; [by attr_lookup|].
    split; [done|]. intros _. split; [by attr_lookup|].
    intros l Hl. subst h2. by rewrite !lookup_insert_ne.
Qed.

(** The steps of [__init__] for a string spec up to the call of
    [json.loads]. *)
Lemma init_str_forward W self s fc args kwargs st0 h1 c attrs enc :
  w_super_init W self args kwargs (heap st0) = (Ret tt, h1) ->
  h1 !! self = Some (OInst c attrs) ->
  attrs !! "encoder" = Some enc ->
  let h2 := <[self := OInst c (<["_schema_kwarg" := VStr s]> attrs)]> h1 in
  let options := if truthy h2 enc then [("cls", enc)] else [] in
  JSONSchemaField_init W self (VStr s) fc args kwargs st0
  = (schema' <--
       try_except
         (extcall (EvJsonLoads s options) (w_json_loads W s options))
         (fun e => match e with
                   | JSONDecodeError _ => Some (FieldReference_new s)
                   | _ => None
                   end) ;;
     write_attr self "format_checker" fc ;;;
     write_attr self "_schema" schema')
      (State h2 (trace st0 ++ [EvSuperInit self args kwargs])).
Proof.
  intros Hsup Hself Henc h2 options.
  set (tr1 := trace st0 ++ [EvSuperInit self args kwargs]).
  assert (He : field_attr h2 self "encoder" = Some enc).
  { unfold field_attr, h2. rewrite lookup_insert_eq. by attr_lookup. }
  unfold JSONSchemaField_init.
  rewrite (bind_ret_eq _ _ _ _ _ (extcall_eq _ _ _ _ _ Hsup)).
  rewrite (bind_ret_eq _ _ _ _ _ (write_attr_inst _ _ _ _ _ _ _ Hself)).
  fold h2 tr1. unfold bind at 1. unfold bind at 1.
  rewrite (read_attr_field _ tr1 _ _ _ He).
  unfold bind at 1. unfold get_heap at 1. cbn [heap].
  unfold bind at 1. subst options.
  destruct (truthy h2 enc).
  - unfold bind at 1. by rewrite (read_attr_field _ tr1 _ _ _ He).
  - reflexivity.
Qed.

(** X8. Construction lets two kinds of failure through unchanged.  When
    the base initialiser raises, that exception is the result and nothing
    has been assigned.  When [json.loads] raises anything but
    [JSONDecodeError], that exception is the result, the parse was the last
    step, and neither [format_checker] nor [_schema] has been assigned. *)
Theorem construction_errors_propagate W self fc args kwargs st0 :
  (forall schema e h1,
      w_super_init W self args kwargs (heap st0) = (Raise e, h1) ->
      JSONSchemaField_init W self schema fc args kwargs st0
      = (Raise e, State h1 (trace st0 ++ [EvSuperInit self args kwargs]))) /\
  (forall s h1 c attrs enc e h3,
      w_super_init W self args kwargs (heap st0) = (Ret tt, h1) ->
      h1 !! self = Some (OInst c attrs) ->
      attrs !! "encoder" = Some enc ->
      let h2 := <[self := OInst c (<["_schema_kwarg" := VStr s]> attrs)]> h1 in
      let options := if truthy h2 enc then [("cls", enc)] else [] in
      w_json_loads W s options h2 = (Raise e, h3) ->
      (forall msg, e <> JSONDecodeError msg) ->
      JSONSchemaField_init W self (VStr s) fc args kwargs st0
      = (Raise e,
         State h3 (trace st0 ++ [EvSuperInit self args kwargs; EvJsonLoads s options]))).
Proof.
  split.
  - intros schema e h1 H. unfold JSONSchemaField_init.
    by rewrite (bind_raise_eq _ _ _ _ _ (extcall_eq _ _ _ _ _ H)).
  - intros s h1 c attrs enc e h3 Hsup Hself Henc h2 options Hloads Hne.
    rewrite (init_str_forward _ _ s fc _ _ _ _ _ _ _ Hsup Hself Henc).
    fold h2 options. apply bind_raise_eq. unfold try_except.
    rewrite (extcall_eq _ _ (State h2 _) _ _ Hloads). cbn [trace].
    rewrite <- app_assoc.
    destruct e; try done. by destruct (Hne msg).
Qed.

Lemma same_trace_write_attr self name v st : trace (write_attr self name v st).2 = trace st.
Proof.
  unfold write_attr. by destruct (heap st !! self) as [[| |c attrs| |]|].
Qed.

(** X9. Whatever the outcome of constructing a field from a string [s],
    once the base initialiser has returned the constructor makes exactly
    one more call: [json.loads] on the whole of [s], with the encoder as
    [cls] when the encoder is truthy and with no option otherwise. *)
Theorem string_spec_parse_call W self s fc args kwargs st0 h1 c attrs enc :
  w_super_init W self args kwargs (heap st0) = (Ret tt, h1) ->
  h1 !! self = Some (OInst c attrs) ->
  attrs !! "encoder" = Some enc ->
  let h2 := <[self := OInst c (<["_schema_kwarg" := VStr s]> attrs)]> h1 in
  let options := if truthy h2 enc then [("cls", enc)] else [] in
  trace (JSONSchemaField_init W self (VStr s) fc args kwargs st0).2
  = trace st0 ++ [EvSuperInit self args kwargs; EvJsonLoads s options].
Proof.
  intros Hsup Hself Henc h2 options.
  rewrite (init_str_forward _ _ s fc _ _ _ _ _ _ _ Hsup Hself Henc).
  fold h2 options.
  set (tr1 := trace st0 ++ [EvSuperInit self args kwargs]).
  assert (Htail : forall schema' st3,
             trace ((write_attr self "format_checker" fc ;;;
                     write_attr self "_schema" schema') st3).2 = trace st3).
  { intros schema' st3. unfold bind.
    pose proof (same_trace_write_attr self "format_checker" fc st3) as H1.
    destruct (write_attr self "format_checker" fc st3) as [[[]|e] st4]; [|done].
    simpl in H1. by rewrite same_trace_write_attr. }
  destruct (w_json_loads W s options h2) as [r h3] eqn:Hloads.
  set (st3 := State h3 (trace st0 ++ [EvSuperInit self args kwargs; EvJsonLoads s options])).
  assert (Hcall : extcall (EvJsonLoads s options) (w_json_loads W s options) (State h2 tr1)
                  = (r, st3)).
  { rewrite (extcall_eq _ _ (State h2 tr1) _ _ Hloads). cbn [trace].
    subst tr1 st3. by rewrite <- app_assoc. }
  destruct r as [v|e].
  - erewrite bind_ret_eq; [|unfold try_except; by rewrite Hcall].
    by rewrite (Htail v st3).
  - destruct (FieldReference_new_spec s st3) as (v & st' & Hnew & Htr & _).
    destruct e as [msg| | | | | |];
      try (erewrite bind_raise_eq; [|unfold try_except; by rewrite Hcall]; done).
    erewrite bind_ret_eq; [|unfold try_except; rewrite Hcall; exact Hnew].
    by rewrite (Htail v st'), Htr.
Qed.

(** ** [validate] from end to end *)

(** X10. Once the base validation has accepted the value and the schema
    is resolved, [validate] ends with the engine call on the value, the
    resolved schema and the format checker: a data-invalid report becomes
    the host error [invalid_data], a schema-invalid report the host error
    [invalid_schema_definition], both with the engine's message, and any
    other outcome of the engine is the outcome of [validate]. *)
Theorem validate_end_to_end W self value inst st h1 schema st2 cls r h3 :
  w_super_validate W self value inst (heap st) = (Ret tt, h1) ->
  get_schema W self inst (State h1 (trace st ++ [EvSuperValidate self value inst]))
  = (Ret schema, st2) ->
  field_attr (heap st2) self "format_checker" = Some cls ->
  w_validate W value schema cls (heap st2) = (r, h3) ->
  validate W self value inst st
  = (match r with
     | Raise (jsonschema_ValidationError message) =>
         Raise (ValidationError message "invalid_data")
     | Raise (jsonschema_SchemaError message) =>
         Raise (ValidationError message "invalid_schema_definition")
     | _ => r
     end,
     State h3 (trace st2 ++ [EvEngineValidate value schema cls])).
Proof.
  intros Hsup Hget Hfc Hval. unfold validate.
  rewrite (bind_ret_eq _ _ _ _ _ (extcall_eq _ _ _ _ _ Hsup)).
  by apply engine_call_eq.
Qed.

(** ** Deconstruction and reconstruction *)

Lemma keyword_list_to_map k (kw : kwargs_t) :
  keyword k kw = (list_to_map kw : gmap string pyval) !! k.
Proof.
  unfold keyword. induction kw as [|[k' v] kw IH]; [done|].
  simpl. destruct (String.eqb k' k) eqn:E.
  - apply String.eqb_eq in E as ->. by rewrite lookup_insert_eq.
  - apply String.eqb_neq in E. by rewrite lookup_insert_ne.
Qed.

Lemma keyword_map_to_list k (items : gmap string pyval) :
  keyword k (map_to_list items) = items !! k.
Proof. by rewrite keyword_list_to_map, list_to_map_to_list. Qed.

Lemma set_item_inv d key v st st' :
  set_item d key v st = (Ret tt, st') ->
  exists l items,
    d = VRef l /\ heap st !! l = Some (ODict items) /\
    st' = State (<[l := ODict (<[key := v]> items)]> (heap st)) (trace st).
Proof.
  unfold set_item. destruct d as [| | | |l]; try discriminate.
  destruct (heap st !! l) as [[items| | | |]|] eqn:Hl; try discriminate.
  intros [= <-]. exists l, items. split; [done|]. split; done.
Qed.

(** What [deconstruct] returned, read back from its result. *)
Lemma deconstruct_inv W self st name path a kw st1 schema fc :
  deconstruct W self st = (Ret (name, path, a, kw), st1) ->
  keeps self (w_super_deconstruct W self) ->
  field_attr (heap st) self "_schema_kwarg" = Some schema ->
  field_attr (heap st) self "format_checker" = Some fc ->
  exists lk items,
    kw = VRef lk /\ heap st1 !! lk = Some (ODict items) /\
    items !! "schema" = Some schema /\ items !! "format_checker" = Some fc.
Proof.
  intros H Hkeep Hkw Hfc. unfold deconstruct in H.
  apply bind_Ret_inv in H as ([[[n p] a'] kw'] & st2 & Hsup & H).
  apply extcall_inv in Hsup as (h1 & Hsup & ->).
  assert (Hself : forall nm x, field_attr (heap st) self nm = Some x ->
                               field_attr h1 self nm = Some x).
  { intros nm x. unfold field_attr.
    destruct (heap st !! self) as [o|] eqn:Ho; [|done].
    apply Hkeep in Ho. rewrite Hsup in Ho. simpl in Ho. by rewrite Ho. }
  apply bind_Ret_inv in H as (v1 & st3 & H1 & H).
  apply read_attr_inv in H1 as [-> H1]. cbn [heap] in H1.
  rewrite (Hself _ _ Hkw) in H1. injection H1 as <-.
  apply bind_Ret_inv in H as ([] & st4 & H2 & H).
  apply set_item_inv in H2 as (lk & items0 & -> & Hlk & ->). cbn [heap trace] in *.
  assert (Hne : lk <> self).
  { intros ->. apply Hself in Hkw. unfold field_attr in Hkw. by rewrite Hlk in Hkw. }
  apply bind_Ret_inv in H as (v2 & st5 & H3 & H).
  apply read_attr_inv in H3 as [-> H3]. cbn [heap] in H3.
  unfold field_attr in H3. rewrite lookup_insert_ne in H3 by done.
  fold (field_attr h1 self "format_checker") in H3.
  rewrite (Hself _ _ Hfc) in H3. injection H3 as <-.
  apply bind_Ret_inv in H as ([] & st6 & H4 & H).
  apply set_item_inv in H4 as (lk' & items1 & Heq & Hlk' & ->). cbn [heap trace] in *.
  injection Heq as <-. rewrite lookup_insert_eq in Hlk'. injection Hlk' as <-.
  unfold ret in H. injection H as <- <- <- <- <-. cbn [heap].
  exists lk, (<["format_checker" := fc]> (<["schema" := schema]> items0)).
  split; [done|]. split; [apply lookup_insert_eq|]. split; by attr_lookup.
Qed.

(** What a constructed field stores of its arguments. *)
Lemma init_stores_arguments W self schema fc args kwargs st0 st :
  JSONSchemaField_init W self schema fc args kwargs st0 = (Ret tt, st) ->
  (forall s options, keeps self (w_json_loads W s options)) ->
  field_attr (heap st) self "_schema_kwarg" = Some schema /\
  field_attr (heap st) self "format_checker" = Some fc.
Proof.
  intros Hinit Hloads. destruct schema as [|b|z|s|l].
  - apply init_None_inv in Hinit as (d & _ & _ & ? & ? & _). done.
  - apply init_other_inv in Hinit as (? & _ & _ & ? & ? & _); done.
  - apply init_other_inv in Hinit as (? & _ & _ & ? & ? & _); done.
  - apply init_str_inv in Hinit as (? & ? & ? & ? & ? & _ & _ & _ & _ & _ & ? & _ & Hk).
    split; [apply Hk, Hloads|done].
  - apply init_other_inv in Hinit as (? & _ & _ & ? & ? & _); done.
Qed.

(** X11. Round trip through [deconstruct]: when a field is reconstructed
    by calling the constructor with the positional and keyword arguments
    that [deconstruct] returned, and the call returns, there were no
    positional arguments, and the new field stores the same original spec
    and the same format checker as the field that was deconstructed. *)
Theorem deconstruct_reconstruct_round_trip
    W self schema fc st name path la lk st1 pos items self2 st2 st3 :
  field_attr (heap st) self "_schema_kwarg" = Some schema ->
  field_attr (heap st) self "format_checker" = Some fc ->
  keeps self (w_super_deconstruct W self) ->
  (forall s options, keeps self2 (w_json_loads W s options)) ->
  deconstruct W self st = (Ret (name, path, VRef la, VRef lk), st1) ->
  heap st1 !! la = Some (OList pos) ->
  heap st1 !! lk = Some (ODict items) ->
  JSONSchemaField_call W self2 pos (map_to_list items) st2 = (Ret tt, st3) ->
  pos = [] /\
  field_attr (heap st3) self2 "_schema_kwarg" = Some schema /\
  field_attr (heap st3) self2 "format_checker" = Some fc.
Proof.
  intros Hkw Hfc Hkeep Hloads Hdec Hla Hlk Hcall.
  destruct (deconstruct_inv _ _ _ _ _ _ _ _ _ _ Hdec Hkeep Hkw Hfc)
    as (lk' & items' & Heq & Hlk' & Hs & Hf).
  injection Heq as <-. rewrite Hlk in Hlk'. injection Hlk' as <-.
  unfold JSONSchemaField_call, bind_arguments in Hcall.
  rewrite !keyword_map_to_list, Hs, Hf in Hcall.
  destruct pos as [|p1 [|p2 rest]]; try discriminate.
  split; [done|]. simpl in Hcall.
  by apply init_stores_arguments in Hcall.
Qed.

(** ** A literal schema from declaration to the engine *)

(** X12. For a field declared with a mapping and a format checker,
    validating a value is one engine call on the value, that very mapping
    and that format checker, whatever the instance: the engine's verdict,
    with its two error kinds translated, is the result. *)
Theorem literal_schema_validation W self m fc args kwargs st0 st items value inst r h' :
  JSONSchemaField_init W self (VRef m) fc args kwargs st0 = (Ret tt, st) ->
  heap st !! m = Some (ODict items) ->
  w_validate W value (VRef m) fc (heap st) = (r, h') ->
  validate_against_schema W self value inst st
  = (match r with
     | Raise (jsonschema_ValidationError message) =>
         Raise (ValidationError message "invalid_data")
     | Raise (jsonschema_SchemaError message) =>
         Raise (ValidationError message "invalid_schema_definition")
     | _ => r
     end,
     State h' (trace st ++ [EvEngineValidate value (VRef m) fc])).
Proof.
  intros Hinit Hm Hval.
  apply init_other_inv in Hinit as (h1 & _ & Hs & _ & Hfc & _); [|done..].
  assert (Hg : get_schema W self inst st = (Ret (VRef m), st))
    by (apply get_schema_not_callable; [done|by eapply callable_mapping]).
  by apply (engine_call_eq _ _ _ _ _ _ _ _ _ _ Hg Hfc Hval).
Qed.

(** ** The further properties on the example fields *)

Import MoreExamples.

(** A text that decodes is never reported as undecodable by the reference
    [json.loads]. *)
Lemma reference_json_loads_decodes s j rest options (h : heap_t) msg h' :
  Reference.decode s = Reference.POk j rest ->
  Reference.json_loads s options h <> (Raise (JSONDecodeError msg), h').
Proof.
  intros Hok. unfold Reference.json_loads. rewrite Hok.
  assert (Hrun : (let '(v, h1) := Reference.reify j h in (Ret v, h1))
                 <> (Raise (JSONDecodeError msg), h'))
    by (by destruct (Reference.reify j h)).
  destruct (Reference.lookup_kw "cls" options) as [[| | | |lc]|]; try done.
  destruct (h !! lc) as [[| | | |name methods]|]; try done.
  by destruct (bool_decide ("decode" ∈ methods)).
Qed.

Lemma segments_of_joined_names_witness :
  split "." (join "." ["model_a"; "json_schema_field"]) = ["model_a"; "json_schema_field"] /\
  (split "." "a.b" = split "." "a.b" -> "a.b" = "a.b").
Proof.
  split.
  - apply (proj2 segments_of_joined_names); [done|]. repeat constructor.
  - apply (proj1 segments_of_joined_names).
Defined.

Lemma single_name_spec_is_one_attribute_read_witness :
  let st := declared (VStr "a") in
  JSONSchemaField_init world 9 (VStr "a") VNone [] [] allocated = (Ret tt, st) /\
  Reference.decode "a" = Reference.PBad /\
  contains "." "a" = false /\
  get_schema world 9 (VRef 1) st
  = (Ret (VRef 2), State (heap st) (trace st ++ [EvGetattr (VRef 1) "a"])).
Proof.
  intros st.
  assert (H1 : JSONSchemaField_init world 9 (VStr "a") VNone [] [] allocated = (Ret tt, st))
    by run.
  assert (H2 : Reference.decode "a" = Reference.PBad) by run.
  split; [exact H1|]. split; [exact H2|]. split; [reflexivity|].
  rewrite (single_name_spec_is_one_attribute_read
             world 9 "a" VNone [] [] allocated st (VRef 1) H1
             (fun options h v h' => reference_json_loads_not_json "a" options h v h' H2)
             eq_refl).
  run.
Defined.

(** The field declared with ["a.c"]: the read of [a] on the instance
    returns object [2], the read of [c] on it raises, and nothing follows. *)
Lemma path_resolution_reads_only_attributes_witness :
  let st := declared (VStr "a.c") in
  field_attr (heap st) 9 "_schema" = Some (VRef 10) /\
  path_reference (heap st) (VRef 10) ["a"; "c"] /\
  (exists os,
      length os <= length ["a"; "c"] /\
      trace (get_schema world 9 (VRef 1) st).2
      = trace st ++ zip_with EvGetattr os ["a"; "c"] /\
      (forall o' os', os = o' :: os' -> o' = VRef 1) /\
      (forall v, (get_schema world 9 (VRef 1) st).1 = Ret v ->
                 length os = length ["a"; "c"])) /\
  ((exists evs v h',
       attr_chain world ["a"; "c"] (VRef 1) (heap st) evs v h' /\
       get_schema world 9 (VRef 1) st = (Ret v, State h' (trace st ++ evs))) \/
   (exists segs1 a segs2 evs o1 h1 e h2,
       ["a"; "c"] = segs1 ++ a :: segs2 /\
       attr_chain world segs1 (VRef 1) (heap st) evs o1 h1 /\
       w_getattr world o1 a h1 = (Raise e, h2) /\
       get_schema world 9 (VRef 1) st
       = (Raise e, State h2 (trace st ++ evs ++ [EvGetattr o1 a])))) /\
  get_schema world 9 (VRef 1) st
  = (Raise (AttributeError "c"),
     State (heap st) (trace st ++ [EvGetattr (VRef 1) "a"; EvGetattr (VRef 2) "c"])).
Proof.
  intros st.
  assert (H1 : field_attr (heap st) 9 "_schema" = Some (VRef 10)) by run.
  assert (Href : path_reference (heap st) (VRef 10) ["a"; "c"]).
  { exists 10%positive, 11%positive, {[ "source" := VRef 11 ]}.
    split; [reflexivity|]. split; [run|]. split; run. }
  destruct (path_resolution_reads_only_attributes world 9 (VRef 1) st (VRef 10) ["a"; "c"]
              H1 Href) as [Hos Hcases].
  split; [exact H1|]. split; [exact Href|]. split; [exact Hos|]. split; [exact Hcases|].
  run.
Defined.

Lemma computed_spec_called_with_instance_witness :
  let st := declared (VRef 7) in
  JSONSchemaField_init world 9 (VRef 7) VNone [] [] allocated = (Ret tt, st) /\
  trace st = trace allocated ++ [EvSuperInit 9 [] []] /\
  get_schema world 9 (VRef 1) st
  = extcall (EvCall (VRef 7) (VRef 1)) (w_call world (VRef 7) (VRef 1)) st /\
  (get_schema world 9 (VRef 1) st).1 = Ret (VRef 10) /\
  heap (get_schema world 9 (VRef 1) st).2 !! 10%positive
  = Some (ODict {[ "type" := VStr "string" ]}).
Proof.
  intros st.
  assert (H1 : JSONSchemaField_init world 9 (VRef 7) VNone [] [] allocated = (Ret tt, st))
    by run.
  destruct (computed_spec_called_with_instance
              world 9 7%positive VNone [] [] allocated st (VRef 1) H1 ltac:(run) ltac:(run))
    as [H2 H3].
  split; [exact H1|]. split; [exact H2|]. split; [exact H3|]. split; run.
Defined.

Lemma json_text_spec_resolves_to_parsed_value_witness :
  let st := declared (VStr "{}") in
  JSONSchemaField_init world 9 (VStr "{}") VNone [] [] allocated = (Ret tt, st) /\
  exists v,
    (exists options h2 h3, w_json_loads world "{}" options h2 = (Ret v, h3)) /\
    field_attr (heap st) 9 "_schema" = Some v /\
    (callable (w_class_callable world) (heap st) v = false ->
     forall inst, get_schema world 9 inst st = (Ret v, st)).
Proof.
  intros st.
  assert (H1 : JSONSchemaField_init world 9 (VStr "{}") VNone [] [] allocated = (Ret tt, st))
    by run.
  assert (H2 : Reference.decode "{}"
               = Reference.POk (Reference.JObj Reference.MNil) EmptyString) by run.
  split; [exact H1|].
  exact (json_text_spec_resolves_to_parsed_value
           world 9 "{}" VNone [] [] allocated st H1
           (fun options h msg h' =>
              reference_json_loads_decodes "{}" _ _ options h msg h' H2)).
Defined.

Lemma construction_without_parse_witness :
  w_super_init world 9 [] [] (heap allocated) = (Ret tt, initialised []) /\
  initialised [] !! 9%positive = Some (OInst "JSONSchemaField" (base_attrs [])) /\
  exists st,
    JSONSchemaField_init world 9 VNone VNone [] [] allocated = (Ret tt, st) /\
    trace st = trace allocated ++ [EvSuperInit 9 [] []] /\
    field_attr (heap st) 9 "_schema_kwarg" = Some VNone /\
    field_attr (heap st) 9 "format_checker" = Some VNone /\
    (VNone = VNone ->
     exists d, initialised [] !! d = None /\
               field_attr (heap st) 9 "_schema" = Some (VRef d) /\
               heap st !! d = Some (ODict ∅)) /\
    (VNone <> VNone ->
     field_attr (heap st) 9 "_schema" = Some VNone /\
     forall l, l <> 9%positive -> heap st !! l = initialised [] !! l).
Proof.
  assert (H1 : w_super_init world 9 [] [] (heap allocated) = (Ret tt, initialised [])) by run.
  assert (H2 : initialised [] !! 9%positive = Some (OInst "JSONSchemaField" (base_attrs [])))
    by run.
  split; [exact H1|]. split; [exact H2|].
  exact (construction_without_parse world 9 VNone VNone [] [] allocated
           (initialised []) "JSONSchemaField" (base_attrs [])
           ltac:(discriminate) H1 H2).
Defined.

(** A truthy encoder that is not callable makes the base initialiser
    raise; an encoder class makes [json.loads] raise [AttributeError]. *)
Lemma construction_errors_propagate_witness :
  JSONSchemaField_init world 9 (VStr "a.b") VNone [] [("encoder", VInt 1)] allocated
  = (Raise (OtherError "ValueError" "The encoder parameter must be a callable object."),
     State (heap allocated) (trace allocated ++ [EvSuperInit 9 [] [("encoder", VInt 1)]])) /\
  (let kw := [("encoder", VRef 6)] in
   let h2 := <[9%positive := OInst "JSONSchemaField"
                               (<["_schema_kwarg" := VStr "{}"]> (base_attrs kw))]>
               (initialised kw) in
   JSONSchemaField_init world 9 (VStr "{}") VNone [] kw allocated
   = (Raise (AttributeError "decode"),
      State h2 (trace allocated
                ++ [EvSuperInit 9 [] kw; EvJsonLoads "{}" [("cls", VRef 6)]]))).
Proof.
  split.
  - apply (proj1 (construction_errors_propagate
                    world 9 VNone [] [("encoder", VInt 1)] allocated)).
    run.
  - intros kw h2.
    assert (H1 : w_super_init world 9 [] kw (heap allocated) = (Ret tt, initialised kw)) by run.
    assert (H2 : initialised kw !! 9%positive
                 = Some (OInst "JSONSchemaField" (base_attrs kw))) by run.
    assert (H3 : base_attrs kw !! "encoder" = Some (VRef 6)) by run.
    assert (H4 : w_json_loads world "{}" [("cls", VRef 6)] h2
                 = (Raise (AttributeError "decode"), h2)) by run.
    exact (proj2 (construction_errors_propagate world 9 VNone [] kw allocated)
                 "{}" (initialised kw) "JSONSchemaField" (base_attrs kw) (VRef 6)
                 (AttributeError "decode") h2 H1 H2 H3 H4 ltac:(discriminate)).
Defined.

Lemma string_spec_parse_call_witness :
  let kw := [("encoder", VRef 6)] in
  w_super_init world 9 [] kw (heap allocated) = (Ret tt, initialised kw) /\
  base_attrs kw !! "encoder" = Some (VRef 6) /\
  trace (JSONSchemaField_init world 9 (VStr "a.b") VNone [] kw allocated).2
  = trace allocated ++ [EvSuperInit 9 [] kw; EvJsonLoads "a.b" [("cls", VRef 6)]].
Proof.
  intros kw.
  assert (H1 : w_super_init world 9 [] kw (heap allocated) = (Ret tt, initialised kw)) by run.
  assert (H2 : initialised kw !! 9%positive
               = Some (OInst "JSONSchemaField" (base_attrs kw))) by run.
  assert (H3 : base_attrs kw !! "encoder" = Some (VRef 6)) by run.
  split; [exact H1|]. split; [exact H3|].
  exact (string_spec_parse_call world 9 "a.b" VNone [] kw allocated
           (initialised kw) "JSONSchemaField" (base_attrs kw) (VRef 6) H1 H2 H3).
Defined.

Lemma validate_end_to_end_witness :
  let st := declared (VRef 3) in
  let st2 := State (heap st) (trace st ++ [EvSuperValidate 9 (VStr "x") (VRef 1)]) in
  w_super_validate world 9 (VStr "x") (VRef 1) (heap st) = (Ret tt, heap st) /\
  get_schema world 9 (VRef 1) st2 = (Ret (VRef 3), st2) /\
  validate world 9 (VStr "x") (VRef 1) st
  = (Raise (ValidationError "'x' is not of type 'integer'" "invalid_data"),
     State (heap st) (trace st2 ++ [EvEngineValidate (VStr "x") (VRef 3) VNone])).
Proof.
  intros st st2.
  assert (H1 : w_super_validate world 9 (VStr "x") (VRef 1) (heap st) = (Ret tt, heap st))
    by run.
  assert (H2 : get_schema world 9 (VRef 1) st2 = (Ret (VRef 3), st2)) by run.
  split; [exact H1|]. split; [exact H2|].
  exact (validate_end_to_end world 9 (VStr "x") (VRef 1) st (heap st) (VRef 3) st2 VNone
           (Raise (jsonschema_ValidationError "'x' is not of type 'integer'")) (heap st)
           H1 H2 ltac:(run) ltac:(run)).
Defined.

Lemma deconstruct_reconstruct_round_trip_witness :
  let st := declared (VStr "a.b") in
  deconstruct world 9 st
  = (Ret (VNone, VStr "models.fields.JSONSchemaField", VRef 12, VRef 13), deconstructed) /\
  heap deconstructed !! 13%positive = Some (ODict returned_kwargs) /\
  JSONSchemaField_call world 14 [] (map_to_list returned_kwargs) second
  = (Ret tt, (JSONSchemaField_call world 14 [] (map_to_list returned_kwargs) second).2) /\
  field_attr (heap (JSONSchemaField_call world 14 [] (map_to_list returned_kwargs) second).2)
             14 "_schema_kwarg" = Some (VStr "a.b") /\
  field_attr (heap (JSONSchemaField_call world 14 [] (map_to_list returned_kwargs) second).2)
             14 "format_checker" = Some VNone.
Proof.
  intros st.
  assert (H1 : deconstruct world 9 st
               = (Ret (VNone, VStr "models.fields.JSONSchemaField", VRef 12, VRef 13),
                  deconstructed)) by run.
  assert (H2 : heap deconstructed !! 13%positive = Some (ODict returned_kwargs)) by run.
  assert (H3 : JSONSchemaField_call world 14 [] (map_to_list returned_kwargs) second
               = (Ret tt, (JSONSchemaField_call world 14 [] (map_to_list returned_kwargs)
                             second).2)) by run.
  split; [exact H1|]. split; [exact H2|]. split; [exact H3|].
  exact (proj2 (deconstruct_reconstruct_round_trip
                  world 9 (VStr "a.b") VNone st VNone (VStr "models.fields.JSONSchemaField")
                  12 13 deconstructed [] returned_kwargs 14 second _
                  ltac:(run) ltac:(run)
                  (reference_super_deconstruct_keeps 9%positive 9%positive)
                  (reference_json_loads_keeps 14%positive)
                  H1 ltac:(run) H2 H3)).
Defined.

Lemma literal_schema_validation_witness :
  let st := declared (VRef 4) in
  JSONSchemaField_init world 9 (VRef 4) VNone [] [] allocated = (Ret tt, st) /\
  heap st !! 4%positive = Some (ODict {[ "type" := VInt 123 ]}) /\
  validate_against_schema world 9 (VInt 5) (VRef 2) st
  = (Raise (ValidationError "123 is not valid under any of the given schemas"
                            "invalid_schema_definition"),
     State (heap st) (trace st ++ [EvEngineValidate (VInt 5) (VRef 4) VNone])).
Proof.
  intros st.
  assert (H1 : JSONSchemaField_init world 9 (VRef 4) VNone [] [] allocated = (Ret tt, st))
    by run.
  assert (H2 : heap st !! 4%positive = Some (ODict {[ "type" := VInt 123 ]})) by run.
  split; [exact H1|]. split; [exact H2|].
  exact (literal_schema_validation world 9 4%positive VNone [] [] allocated st _
           (VInt 5) (VRef 2)
           (Raise (jsonschema_SchemaError "123 is not valid under any of the given schemas"))
           (heap st) H1 H2 ltac:(run)).
Defined.
